(** * OverflowList: a shallow embedding of [assets/overflow-list.js]

    The custom element partitions the elements assigned to its default slot
    into a visible and an overflowing bucket by comparing the top of every
    element with the top of the "more" slot, after the row has been allowed to
    wrap.  The embedding keeps the DOM state the component touches (slot
    attributes, inline styles, [hidden] flags, host attributes, observers,
    the timer queue and the dispatched events) as explicit state, and the
    rectangles the browser reports during a pass as an input of the pass.
    It covers [#initialize], [disconnectedCallback], [#handleChange],
    [#reset], [showAll], [attributeChangedCallback] and [#reflowItems] with
    their helpers; the first-intersection callback and its reflow come
    further down, with [updateActiveTier] of the volume pricing popover and
    the part of the header component that listens to the list. *)

From Stdlib Require Import ZArith String Ascii List Bool Lia PeanoNat.
Import ListNotations.

Local Open Scope string_scope.
Local Open Scope list_scope.
Local Open Scope nat_scope.

(** ** JavaScript values used by the component *)

Module JS.

(** The numbers [parseInt(value, 10)] can return.  A JavaScript number is a
    double; the component only ever compares the result with an array
    length, and rounding a decimal integer to the nearest double (or to
    Infinity) never changes the outcome of a comparison with an integer
    below 2^32, so the exact integer is kept. *)
Inductive number : Type :=
| NaN
| Int (z : Z).

(** StrWhiteSpaceChar, restricted to code units below 256. *)
Definition isStrWhiteSpaceChar (c : ascii) : bool :=
  let n := nat_of_ascii c in
  (n =? 9) || (n =? 10) || (n =? 11) || (n =? 12) || (n =? 13)
  || (n =? 32) || (n =? 160).

Fixpoint trimStart (s : string) : string :=
  match s with
  | String c rest => if isStrWhiteSpaceChar c then trimStart rest else s
  | EmptyString => EmptyString
  end.

Definition digit (c : ascii) : option Z :=
  let n := nat_of_ascii c in
  if (48 <=? n) && (n <=? 57) then Some (Z.of_nat (n - 48)) else None.

(** Value of the longest prefix of decimal digits; [acc] is [None] while no
    digit has been read. *)
Fixpoint digits (s : string) (acc : option Z) : option Z :=
  match s with
  | String c rest =>
      match digit c with
      | Some d =>
          digits rest
            (Some (10 * (match acc with Some a => a | None => 0 end) + d)%Z)
      | None => acc
      end
  | EmptyString => acc
  end.

(** [parseInt(s, 10)]: leading white space is skipped, one sign is read,
    then the longest run of decimal digits; no digit gives NaN. *)
Definition parseInt10 (s : string) : number :=
  let trimmed := trimStart s in
  let '(sign, body) :=
    match trimmed with
    | String "-"%char rest => ((-1)%Z, rest)
    | String "+"%char rest => (1%Z, rest)
    | _ => (1%Z, trimmed)
    end in
  match digits body None with
  | None => NaN
  | Some m => Int (sign * m)
  end.

(** [n < m] for an array length [n]; any comparison with NaN is false. *)
Definition length_lt (n : nat) (m : number) : bool :=
  match m with
  | NaN => false
  | Int z => (Z.of_nat n <? z)%Z
  end.

(** Truthiness of a string: only the empty string is falsy. *)
Definition truthy (s : string) : bool :=
  match s with
  | EmptyString => false
  | String _ _ => true
  end.

End JS.

(** ** The DOM state the component reads and writes *)

Definition ElemId := nat.

(** A light-DOM element child of the host: its identity, its [slot]
    attribute, the inline [order] property of its style, and whether it is a
    [<template>]. *)
Record Child : Type := mkChild {
  child_id : ElemId;
  child_slot : string;
  child_order : option string;
  child_is_template : bool
}.

Definition set_slot (name : string) (c : Child) : Child :=
  {| child_id := child_id c; child_slot := name;
     child_order := child_order c; child_is_template := child_is_template c |}.

Definition set_order (v : option string) (c : Child) : Child :=
  {| child_id := child_id c; child_slot := child_slot c;
     child_order := v; child_is_template := child_is_template c |}.

(** Classes the elements found in the shadow root may have. *)
Inductive ElemClass : Type :=
| HTMLSlotElement
| HTMLUListElement
| HTMLLIElement
| HTMLTemplateElement
| HTMLOtherElement
| NonHTMLElement.

Definition instanceof_HTMLSlotElement (e : option ElemClass) : bool :=
  match e with Some HTMLSlotElement => true | _ => false end.

Definition instanceof_HTMLUListElement (e : option ElemClass) : bool :=
  match e with Some HTMLUListElement => true | _ => false end.

Definition instanceof_HTMLLIElement (e : option ElemClass) : bool :=
  match e with Some HTMLLIElement => true | _ => false end.

Definition instanceof_HTMLElement (e : option ElemClass) : bool :=
  match e with
  | Some NonHTMLElement => false
  | Some _ => true
  | None => false
  end.

(** The results of the six [shadowRoot.querySelector] calls of
    [#initialize] ([None] is [null]). *)
Record ShadowRoot : Type := mkShadowRoot {
  q_defaultSlot : option ElemClass;   (* 'slot:not([name])' *)
  q_overflowSlot : option ElemClass;  (* 'slot[name="overflow"]' *)
  q_moreSlot : option ElemClass;      (* 'slot[name="more"]' *)
  q_overflow : option ElemClass;      (* '[part="overflow"]' *)
  q_list : option ElemClass;          (* '[part="list"]' *)
  q_placeholder : option ElemClass    (* '[part="placeholder"]' *)
}.

(** [#refs]: of the two slots whose assigned elements are read, the [name]
    is kept; the selectors fix them to [""] and ["overflow"]. *)
Record Refs : Type := mkRefs {
  defaultSlot_name : string;
  overflowSlot_name : string
}.

(** Inline style of the [part="list"] row. *)
Record ListEl : Type := mkListEl {
  list_height : option Z;            (* 'height', in px *)
  list_flex_wrap : option string;    (* 'flex-wrap' *)
  list_counter_reset : option nat;   (* 'counter-reset: overflow-count n' *)
  list_overflow : option string      (* 'overflow' *)
}.

Record MoreSlot : Type := mkMoreSlot {
  more_order : option string;        (* style 'order' *)
  more_hidden : bool
}.

Record Placeholder : Type := mkPlaceholder {
  ph_width : option Z;               (* style 'width', in px *)
  ph_display : option string;        (* style 'display' *)
  ph_hidden : bool
}.

(** Attributes and style of the host element itself. *)
Record Host : Type := mkHost {
  attr_disabled : option string;
  attr_minimum_items : option string;
  attr_minimum_reached : option string;
  host_overflow_count : option nat   (* '--overflow-count' *)
}.

Record Observers : Type := mkObservers {
  resizeObserver : bool;             (* observing the host *)
  mutationObserver : bool;           (* observing the host's child list *)
  intersectionObserver : list ElemId (* observed elements *)
}.

Record State : Type := mkState {
  host : Host;
  shadowRoot : option ShadowRoot;
  children : list Child;
  refs : option Refs;
  listEl : ListEl;
  moreSlot : MoreSlot;
  placeholder : Placeholder;
  observers : Observers;
  reflowListeners : nat;             (* listeners added for 'reflow' *)
  scheduled : bool;                  (* #scheduled *)
  pending : nat;                     (* queued rAF -> setTimeout callbacks *)
  dispatched : list bool             (* OverflowMinimumEvent details, oldest first *)
}.

Definition set_host (v : Host) (s : State) : State :=
  mkState v (shadowRoot s) (children s) (refs s) (listEl s) (moreSlot s)
    (placeholder s) (observers s) (reflowListeners s) (scheduled s)
    (pending s) (dispatched s).

Definition set_children (v : list Child) (s : State) : State :=
  mkState (host s) (shadowRoot s) v (refs s) (listEl s) (moreSlot s)
    (placeholder s) (observers s) (reflowListeners s) (scheduled s)
    (pending s) (dispatched s).

Definition set_refs (v : option Refs) (s : State) : State :=
  mkState (host s) (shadowRoot s) (children s) v (listEl s) (moreSlot s)
    (placeholder s) (observers s) (reflowListeners s) (scheduled s)
    (pending s) (dispatched s).

Definition set_listEl (v : ListEl) (s : State) : State :=
  mkState (host s) (shadowRoot s) (children s) (refs s) v (moreSlot s)
    (placeholder s) (observers s) (reflowListeners s) (scheduled s)
    (pending s) (dispatched s).

Definition set_moreSlot (v : MoreSlot) (s : State) : State :=
  mkState (host s) (shadowRoot s) (children s) (refs s) (listEl s) v
    (placeholder s) (observers s) (reflowListeners s) (scheduled s)
    (pending s) (dispatched s).

Definition set_placeholder (v : Placeholder) (s : State) : State :=
  mkState (host s) (shadowRoot s) (children s) (refs s) (listEl s)
    (moreSlot s) v (observers s) (reflowListeners s) (scheduled s)
    (pending s) (dispatched s).

Definition set_observers (v : Observers) (s : State) : State :=
  mkState (host s) (shadowRoot s) (children s) (refs s) (listEl s)
    (moreSlot s) (placeholder s) v (reflowListeners s) (scheduled s)
    (pending s) (dispatched s).

Definition set_reflowListeners (v : nat) (s : State) : State :=
  mkState (host s) (shadowRoot s) (children s) (refs s) (listEl s)
    (moreSlot s) (placeholder s) (observers s) v (scheduled s)
    (pending s) (dispatched s).

Definition set_scheduled (v : bool) (s : State) : State :=
  mkState (host s) (shadowRoot s) (children s) (refs s) (listEl s)
    (moreSlot s) (placeholder s) (observers s) (reflowListeners s) v
    (pending s) (dispatched s).

Definition set_pending (v : nat) (s : State) : State :=
  mkState (host s) (shadowRoot s) (children s) (refs s) (listEl s)
    (moreSlot s) (placeholder s) (observers s) (reflowListeners s)
    (scheduled s) v (dispatched s).

Definition set_dispatched (v : list bool) (s : State) : State :=
  mkState (host s) (shadowRoot s) (children s) (refs s) (listEl s)
    (moreSlot s) (placeholder s) (observers s) (reflowListeners s)
    (scheduled s) (pending s) v.

(** How a method ends: normally, or by throwing; the state reached is kept
    in both cases. *)
Inductive Completion : Type :=
| Normal (s : State)
| Throw (error : string) (s : State).

Definition state_of (c : Completion) : State :=
  match c with
  | Normal s => s
  | Throw _ s => s
  end.

(** ** Layout metrics *)

Record Rect : Type := mkRect {
  top : Z;
  width : Z
}.

(** What [getBoundingClientRect] returns during one pass: the rectangle of
    the "more" slot and of every element.  Coordinates are finite doubles;
    the pass only compares tops with [>] and copies one width, so they are
    kept as integers of a fixed sub-pixel unit. *)
Record Layout : Type := mkLayout {
  moreSlotRect : Rect;
  elementRect : ElemId -> Rect
}.

(** ** The component *)

(** Names of the slots the selectors of [#initialize] pick. *)
Definition selected_refs : Refs :=
  {| defaultSlot_name := ""; overflowSlot_name := "overflow" |}.

(** [slot.assignedElements()]: the children whose [slot] attribute is the
    slot's name, in tree order. *)
Definition assignedElements (name : string) (cs : list Child) : list Child :=
  filter (fun c => String.eqb (child_slot c) name) cs.

(** [elements[elements.length - 1]] ([None] is [undefined]). *)
Definition lastOf {A : Type} (l : list A) : option A :=
  nth_error l (List.length l - 1).

(** The error raised by destructuring [this.#refs] while it is still
    [undefined]. *)
Definition TypeError : string := "TypeError".

(** [get minimumItems]; [None] is [null]. *)
Definition minimumItems (s : State) : option JS.number :=
  match attr_minimum_items (host s) with
  | Some value => if JS.truthy value then Some (JS.parseInt10 value) else None
  | None => None
  end.

(** [a === b] on element references that may be [undefined]. *)
Definition sameElement (a b : option Child) : bool :=
  match a, b with
  | Some x, Some y => child_id x =? child_id y
  | None, None => true
  | _, _ => false
  end.

(** [intersectionObserver.observe(e)] *)
Definition observeIntersection (e : ElemId) (s : State) : State :=
  let o := observers s in
  set_observers
    (mkObservers (resizeObserver o) (mutationObserver o)
       (if existsb (Nat.eqb e) (intersectionObserver o)
        then intersectionObserver o
        else intersectionObserver o ++ [e])) s.

(** [#initialize] *)
Definition initialize (s : State) : Completion :=
  match shadowRoot s with
  | None => Throw "Missing shadow root" s
  | Some root =>
      if negb (instanceof_HTMLSlotElement (q_defaultSlot root))
         || negb (instanceof_HTMLSlotElement (q_overflowSlot root))
         || negb (instanceof_HTMLSlotElement (q_moreSlot root))
         || negb (instanceof_HTMLElement (q_overflow root))
         || negb (instanceof_HTMLUListElement (q_list root))
         || negb (instanceof_HTMLLIElement (q_placeholder root))
      then Throw "Invalid element types in <OverflowList />" s
      else
        let s := set_refs (Some selected_refs) s in
        let s := set_reflowListeners (S (reflowListeners s)) s in
        let elements :=
          filter (fun element => negb (child_is_template element))
            (assignedElements (defaultSlot_name selected_refs) (children s)) in
        let firstElement := nth_error elements 0 in
        let lastElement := lastOf elements in
        let s :=
          match firstElement with
          | Some f => observeIntersection (child_id f) s
          | None => s
          end in
        let s :=
          match lastElement with
          | Some l =>
              if negb (sameElement (Some l) firstElement)
              then observeIntersection (child_id l) s else s
          | None => s
          end in
        Normal s
  end.

(** [disconnectedCallback] *)
Definition disconnectedCallback (s : State) : State :=
  set_observers (mkObservers false false []) s.

(** [#observeChanges] and [#unobserveChanges] *)
Definition observeChanges (s : State) : State :=
  set_observers
    (mkObservers true true (intersectionObserver (observers s))) s.

Definition unobserveChanges (s : State) : State :=
  set_observers
    (mkObservers false false (intersectionObserver (observers s))) s.

(** [#moveItemsToDefaultSlot] *)
Definition moveItemsToDefaultSlot (r : Refs) (s : State) : State :=
  set_children
    (map (fun element =>
            if String.eqb (child_slot element) (overflowSlot_name r) then
              if negb (String.eqb (child_slot element) (defaultSlot_name r))
              then set_slot (defaultSlot_name r) element
              else element
            else element)
       (children s)) s.

(** [#reset] *)
Definition reset (s : State) : Completion :=
  match refs s with
  | None => Throw TypeError s
  | Some r =>
      let s := unobserveChanges s in
      let s := moveItemsToDefaultSlot r s in
      let l := listEl s in
      let s :=
        set_listEl
          (mkListEl None (list_flex_wrap l) (list_counter_reset l)
             (list_overflow l)) s in
      let h := host s in
      Normal
        (set_host
           (mkHost (attr_disabled h) (attr_minimum_items h)
              (attr_minimum_reached h) (Some 0)) s)
  end.

(** [#updateMinimumReached] *)
Definition updateMinimumReached (visibleElements : list ElemId) (s : State)
  : State :=
  match minimumItems s with
  | Some m =>
      let minimumReached := JS.length_lt (length visibleElements) m in
      let h := host s in
      let s :=
        set_host
          (mkHost (attr_disabled h) (attr_minimum_items h)
             (if minimumReached then Some "" else None)
             (host_overflow_count h)) s in
      set_dispatched (dispatched s ++ [minimumReached]) s
  | None => s
  end.

(** The four locals the [forEach] of [#reflowItems] updates. *)
Record Measure : Type := mkMeasure {
  visibleElements : list ElemId;
  overflowingElements : list ElemId;
  placeholderWidth : Z;
  hasOverflow : bool
}.

Definition measureElement (L : Layout) (m : Measure) (element : Child)
  : Measure :=
  let rect := elementRect L (child_id element) in
  if (top rect >? top (moreSlotRect L))%Z then
    {| visibleElements := visibleElements m;
       overflowingElements := overflowingElements m ++ [child_id element];
       placeholderWidth :=
         if List.length (overflowingElements m) =? 0
         then width rect else placeholderWidth m;
       hasOverflow := true |}
  else
    {| visibleElements := visibleElements m ++ [child_id element];
       overflowingElements := overflowingElements m;
       placeholderWidth := placeholderWidth m;
       hasOverflow := hasOverflow m |}.

Definition measure (L : Layout) (elements : list Child) : Measure :=
  fold_left (measureElement L) elements (mkMeasure [] [] 0%Z false).

(** [array.includes(element)] on element references. *)
Definition includes (l : list ElemId) (e : ElemId) : bool :=
  existsb (Nat.eqb e) l.

(** [element.style.setProperty('order', v)] / [removeProperty('order')] on
    the element [e]. *)
Definition styleOrder (e : ElemId) (v : option string) (s : State) : State :=
  set_children
    (map (fun c => if child_id c =? e then set_order v c else c)
       (children s)) s.

(** The writes of [#reflowItems] that precede the measurement: the locked
    height, wrapping, the hidden placeholder and the promotions to the front
    of the visual order. *)
Definition prepareMeasurement (listHeight : Z)
    (lastVisibleElement : option ElemId) (s : State) : State :=
  let s :=
    if (listHeight >? 0)%Z then
      let l := listEl s in
      set_listEl
        (mkListEl (Some listHeight) (list_flex_wrap l)
           (list_counter_reset l) (list_overflow l)) s
    else s in
  let l := listEl s in
  let s :=
    set_listEl
      (mkListEl (list_height l) (Some "wrap") (list_counter_reset l)
         (list_overflow l)) s in
  let p := placeholder s in
  let s := set_placeholder (mkPlaceholder (ph_width p) (ph_display p) true) s in
  let s := set_moreSlot (mkMoreSlot (Some "-1") (more_hidden (moreSlot s))) s in
  let s := set_moreSlot (mkMoreSlot (more_order (moreSlot s)) false) s in
  match lastVisibleElement with
  | Some e => styleOrder e (Some "-1") s
  | None => s
  end.

(** The writes of [#reflowItems] that follow the measurement [m]. *)
Definition applyMeasure (r : Refs) (m : Measure)
    (lastVisibleElement : option ElemId) (s : State) : State :=
  let s :=
    if hasOverflow m
    then set_moreSlot (mkMoreSlot None (more_hidden (moreSlot s))) s
    else s in
  let s :=
    match lastVisibleElement with
    | Some e => styleOrder e None s
    | None => s
    end in
  let s :=
    set_children
      (map (fun element =>
              if String.eqb (child_slot element) (defaultSlot_name r) then
                let targetSlot :=
                  if includes (overflowingElements m) (child_id element)
                  then overflowSlot_name r else defaultSlot_name r in
                if negb (String.eqb (child_slot element) targetSlot)
                then set_slot targetSlot element else element
              else element)
         (children s)) s in
  let l := listEl s in
  let s :=
    set_listEl
      (mkListEl (list_height l) (list_flex_wrap l)
         (Some (List.length (overflowingElements m))) (list_overflow l)) s in
  let h := host s in
  let s :=
    set_host
      (mkHost (attr_disabled h) (attr_minimum_items h)
         (attr_minimum_reached h)
         (Some (List.length (overflowingElements m)))) s in
  let s :=
    set_moreSlot
      (mkMoreSlot (more_order (moreSlot s)) (negb (hasOverflow m))) s in
  let s :=
    if hasOverflow m then
      let p := placeholder s in
      let s :=
        set_placeholder
          (mkPlaceholder (Some (placeholderWidth m)) (ph_display p)
             (ph_hidden p)) s in
      let p := placeholder s in
      set_placeholder (mkPlaceholder (ph_width p) (ph_display p) false) s
    else s in
  let l := listEl s in
  let s :=
    set_listEl
      (mkListEl (list_height l) (list_flex_wrap l) (list_counter_reset l)
         (Some "unset")) s in
  let s :=
    if hasOverflow m then updateMinimumReached (visibleElements m) s
    else s in
  observeChanges s.

(** The body of [#reflowItems] once [#refs] has been destructured: the
    reset, the early return on an empty slot, then the writes around the
    measuring [forEach]. *)
Definition reflowPass (r : Refs) (L : Layout) (listHeight : Z)
    (lastVisibleElement : option ElemId) (s : State) : State :=
  let s := unobserveChanges s in
  let s := moveItemsToDefaultSlot r s in
  let elements := assignedElements (defaultSlot_name r) (children s) in
  match lastOf elements with
  | None => observeChanges s
  | Some _ =>
      let s := prepareMeasurement listHeight lastVisibleElement s in
      let m := measure L elements in
      applyMeasure r m lastVisibleElement s
  end.

(** [#reflowItems] *)
Definition reflowItems (L : Layout) (listHeight : Z)
    (lastVisibleElement : option ElemId) (s : State) : Completion :=
  match refs s with
  | None => Throw TypeError s
  | Some r => Normal (reflowPass r L listHeight lastVisibleElement s)
  end.

(** [attributeChangedCallback(name, oldValue, newValue)]; [L] is the layout
    the browser reports should the callback measure. *)
Definition attributeChangedCallback (name : string) (newValue : option string)
    (L : Layout) (s : State) : Completion :=
  if String.eqb name "disabled" then
    match newValue with
    | Some v => if String.eqb v "true" then reset s
                else reflowItems L 0 None s
    | None => reflowItems L 0 None s
    end
  else Normal s.

(** [this.setAttribute('disabled', v)]: the attribute is written, then the
    custom-element reaction runs. *)
Definition setAttribute_disabled (v : string) (L : Layout) (s : State)
  : Completion :=
  let h := host s in
  let s :=
    set_host
      (mkHost (Some v) (attr_minimum_items h) (attr_minimum_reached h)
         (host_overflow_count h)) s in
  attributeChangedCallback "disabled" (Some v) L s.

(** [this.removeAttribute('disabled')] *)
Definition removeAttribute_disabled (L : Layout) (s : State) : Completion :=
  match attr_disabled (host s) with
  | None => Normal s
  | Some _ =>
      let h := host s in
      let s :=
        set_host
          (mkHost None (attr_minimum_items h) (attr_minimum_reached h)
             (host_overflow_count h)) s in
      attributeChangedCallback "disabled" None L s
  end.

(** [showAll] *)
Definition showAll (L : Layout) (s : State) : Completion :=
  match refs s with
  | None => Throw TypeError s
  | Some _ =>
      let p := placeholder s in
      let s := set_placeholder (mkPlaceholder (Some 0%Z) (ph_display p) (ph_hidden p)) s in
      let p := placeholder s in
      let s := set_placeholder (mkPlaceholder (ph_width p) (Some "none") (ph_hidden p)) s in
      setAttribute_disabled "true" L s
  end.

(** [#handleChange]: the callback of the resize and mutation observers. *)
Definition handleChange (s : State) : State :=
  if scheduled s then s
  else set_pending (S (pending s)) (set_scheduled true s).

(** The function [#handleChange] hands to [requestAnimationFrame] and then
    [setTimeout]: the reflow, then the flag is cleared (not reached when the
    reflow throws). *)
Definition scheduledCallback (L : Layout) (s : State) : Completion :=
  match reflowItems L 0 None s with
  | Normal s' => Normal (set_scheduled false s')
  | Throw e s' => Throw e s'
  end.

(** ** The event loop seen from the component *)

Inductive Event : Type :=
| ResizeNotification                 (* the resize observer has entries *)
| MutationNotification               (* the mutation observer has records *)
| TimerFires (L : Layout)            (* a queued callback of #handleChange runs *)
| Disconnected                       (* the element leaves the document *)
| ShowAll (L : Layout)
| SetDisabled (v : string) (L : Layout)
| RemoveDisabled (L : Layout)
| ReflowRequested (L : Layout) (lastVisibleElement : option ElemId).

(** Modelled from the spec: [ResizeNotifier], the resize observer of the
    theme's utilities, is not among the sources.  As the spec has it, a
    reflow disconnects all change observers so that it does not trigger
    itself again, and after a reset later notifications are ignored: an
    observer only calls back while it observes, which is also how the
    browser's own [MutationObserver] behaves.

    One turn of the event loop: a notification reaches [#handleChange] only
    through a connected observer; a timer only fires when one is queued; an
    exception that escapes a callback is reported and the loop goes on from
    the state reached. *)
Definition step (e : Event) (s : State) : State :=
  match e with
  | ResizeNotification =>
      if resizeObserver (observers s) then handleChange s else s
  | MutationNotification =>
      if mutationObserver (observers s) then handleChange s else s
  | TimerFires L =>
      match pending s with
      | O => s
      | S n => state_of (scheduledCallback L (set_pending n s))
      end
  | Disconnected => disconnectedCallback s
  | ShowAll L => state_of (showAll L s)
  | SetDisabled v L => state_of (setAttribute_disabled v L s)
  | RemoveDisabled L => state_of (removeAttribute_disabled L s)
  | ReflowRequested L e =>
      Nat.iter (reflowListeners s)
        (fun s => state_of (reflowItems L 0 e s)) s
  end.

Definition run (es : list Event) (s : State) : State :=
  fold_left (fun s e => step e s) es s.

(** The two buckets, read off the DOM. *)
Definition visibleBucket (s : State) : list Child :=
  assignedElements "" (children s).

Definition overflowBucket (s : State) : list Child :=
  assignedElements "overflow" (children s).

(** The test of the [forEach] body: the element sits below the "more" slot. *)
Definition overflows (L : Layout) (c : Child) : bool :=
  (top (elementRect L (child_id c)) >? top (moreSlotRect L))%Z.

(** The [elements] array of a pass started in [s]. *)
Definition elementsOf (r : Refs) (s : State) : list Child :=
  assignedElements (defaultSlot_name r)
    (children (moveItemsToDefaultSlot r (unobserveChanges s))).

Definition idsOf (cs : list Child) : list ElemId := map child_id cs.


(** The structural test of [#initialize], as one boolean. *)
Definition requiredStructure (root : ShadowRoot) : bool :=
  instanceof_HTMLSlotElement (q_defaultSlot root)
  && instanceof_HTMLSlotElement (q_overflowSlot root)
  && instanceof_HTMLSlotElement (q_moreSlot root)
  && instanceof_HTMLElement (q_overflow root)
  && instanceof_HTMLUListElement (q_list root)
  && instanceof_HTMLLIElement (q_placeholder root).

(** The events through which the resize and mutation observers reach the
    component: their notifications and the timers these queue. *)
Definition isNotification (e : Event) : bool :=
  match e with
  | ResizeNotification | MutationNotification | TimerFires _ => true
  | _ => false
  end.

(** ** The wrapping row *)

(** Modelled from the spec: the line breaking of the wrapping row is done by
    the browser under the theme's style sheet, neither of which is part of
    the sources.  The spec describes it as accumulating widths from left to
    right behind the "more" indicator: an element stays on the current line
    while the accumulated width does not exceed the container width, and
    otherwise falls to the next line, which it starts.  [lineOf] is the index
    of the line the element [e] ends on, [used] being the width already taken
    on the current [line]; an element that is not in the row is not laid out
    and reports line 0. *)
Fixpoint lineOf (W : Z) (widthOf : ElemId -> Z) (used : Z) (line : Z)
    (row : list ElemId) (e : ElemId) : Z :=
  match row with
  | [] => 0%Z
  | x :: rest =>
      let fits := (used + widthOf x <=? W)%Z in
      let line' := if fits then line else (line + 1)%Z in
      let used' := if fits then (used + widthOf x)%Z else widthOf x in
      if x =? e then line' else lineOf W widthOf used' line' rest e
  end.

(** Modelled from the spec: the visual order during the measurement, the
    pinned element promoted in front of the other elements. *)
Definition visualOrder (lastVisibleElement : option ElemId)
    (elements : list Child) : list ElemId :=
  match lastVisibleElement with
  | Some e =>
      filter (Nat.eqb e) (idsOf elements)
      ++ filter (fun x => negb (e =? x)) (idsOf elements)
  | None => idsOf elements
  end.

(** Modelled from the spec: the rectangles reported for a row of width [W]
    whose lines are [lineHeight] apart, the "more" indicator of width
    [moreWidth] leading the first line. *)
Definition wrappedLayout (W moreWidth lineHeight : Z)
    (widthOf : ElemId -> Z) (lastVisibleElement : option ElemId)
    (elements : list Child) : Layout :=
  {| moreSlotRect := mkRect 0 moreWidth;
     elementRect := fun e =>
       mkRect
         (lineHeight *
          lineOf W widthOf moreWidth 0
            (visualOrder lastVisibleElement elements) e)
         (widthOf e) |}.

(** ** A header menu of three items *)

Definition item (i : ElemId) : Child := mkChild i "" None false.

Definition menuRoot : ShadowRoot :=
  mkShadowRoot (Some HTMLSlotElement) (Some HTMLSlotElement)
    (Some HTMLSlotElement) (Some HTMLOtherElement) (Some HTMLUListElement)
    (Some HTMLLIElement).

(** The element as parsed, [minimum-items="2"], before [#initialize]. *)
Definition parsedMenu : State :=
  mkState (mkHost None (Some "2") None None) (Some menuRoot)
    [item 1; item 2; item 3] None
    (mkListEl None None None None) (mkMoreSlot None false)
    (mkPlaceholder None None false) (mkObservers false false [])
    0 false 0 [].

Definition menu : State := state_of (initialize parsedMenu).

(** The same element whose template lacks the placeholder. *)
Definition brokenMenu : State :=
  mkState (mkHost None (Some "2") None None)
    (Some
       (mkShadowRoot (Some HTMLSlotElement) (Some HTMLSlotElement)
          (Some HTMLSlotElement) (Some HTMLOtherElement)
          (Some HTMLUListElement) None))
    [item 1; item 2; item 3] None
    (mkListEl None None None None) (mkMoreSlot None false)
    (mkPlaceholder None None false) (mkObservers false false [])
    0 false 0 [].

(** A narrow row: only item 1 shares the line of the "more" slot. *)
Definition narrow : Layout :=
  mkLayout (mkRect 0 40)
    (fun e => if e <=? 1 then mkRect 0 50 else mkRect 30 (Z.of_nat e * 10)).

(** A wide row: every item shares the line of the "more" slot. *)
Definition wide : Layout :=
  mkLayout (mkRect 0 40) (fun e => mkRect 0 50).

(** What a detached element reports: empty rectangles. *)
Definition detachedLayout : Layout :=
  mkLayout (mkRect 0 0) (fun e => mkRect 0 0).

(** The menu after a first pass on the narrow row, and after a second pass
    once the row has been widened. *)
Definition menuNarrow : State := state_of (reflowItems narrow 0 None menu).

Definition menuWidened : State :=
  state_of (reflowItems wide 0 None menuNarrow).

(** The menu after a second pass on the unchanged narrow row. *)
Definition menuNarrowAgain : State :=
  state_of (reflowItems narrow 0 None menuNarrow).

(** The narrow menu on which a resize has queued a reflow and which has
    then been detached. *)
Definition menuDetached : State :=
  run [ResizeNotification; Disconnected] menuNarrow.

(** A menu in which every item fits, on which a resize has queued a
    reflow. *)
Definition menuResized : State :=
  step ResizeNotification (state_of (reflowItems wide 0 None menu)).

(** A menu of five items, each 50 wide, in a row of width 200 whose "more"
    indicator is 40 wide. *)
Definition menuOfFive : State :=
  mkState (mkHost None None None None) (Some menuRoot)
    [item 1; item 2; item 3; item 4; item 5] (Some selected_refs)
    (mkListEl None None None None) (mkMoreSlot None false)
    (mkPlaceholder None None false) (mkObservers false false [])
    1 false 0 [].

Definition rowOfFive (widthOf : ElemId -> Z) : Layout :=
  wrappedLayout 200 40 30 widthOf None (elementsOf selected_refs menuOfFive).

(** ** What a pass does to one child *)

(** The body of the loop of [#moveItemsToDefaultSlot], on one child. *)
Definition resetChild (r : Refs) (element : Child) : Child :=
  if String.eqb (child_slot element) (overflowSlot_name r) then
    if negb (String.eqb (child_slot element) (defaultSlot_name r))
    then set_slot (defaultSlot_name r) element
    else element
  else element.

(** The two writes of [#reflowItems] to the pinned element's [order], on one
    child: promoted before the measurement, removed after it. *)
Definition unpinChild (lastVisibleElement : option ElemId) (c : Child)
  : Child :=
  match lastVisibleElement with
  | Some e => if child_id c =? e then set_order None c else c
  | None => c
  end.

(** The body of the slot-assigning loop of [#reflowItems], on one child,
    [overflowing] being the array [overflowingElements]. *)
Definition assignChild (r : Refs) (overflowing : list ElemId)
    (element : Child) : Child :=
  if String.eqb (child_slot element) (defaultSlot_name r) then
    let targetSlot :=
      if includes overflowing (child_id element)
      then overflowSlot_name r else defaultSlot_name r in
    if negb (String.eqb (child_slot element) targetSlot)
    then set_slot targetSlot element else element
  else element.

(** A child is an item of the list when it sits in one of the two slots the
    component moves elements between. *)
Definition isItem (c : Child) : bool :=
  String.eqb (child_slot c) "" || String.eqb (child_slot c) "overflow".

(** The notifications of the resize and of the mutation observer. *)
Definition isChange (e : Event) : bool :=
  match e with
  | ResizeNotification | MutationNotification => true
  | _ => false
  end.

(** The notifications one pass started in [s] dispatches: the argument of
    the call of [#updateMinimumReached], when the call is made. *)
Definition passEvents (r : Refs) (L : Layout) (s : State) : list bool :=
  if hasOverflow (measure L (elementsOf r s)) then
    match minimumItems s with
    | Some mi =>
        [JS.length_lt
           (List.length (visibleElements (measure L (elementsOf r s)))) mi]
    | None => []
    end
  else [].

(** The menu attached, detached and attached again: [#initialize] has run
    twice. *)
Definition menuReattached : State := state_of (initialize menu).

(** The menu with [minimum-items="auto"], a value without digits. *)
Definition menuAuto : State :=
  set_host (mkHost None (Some "auto") None None) menu.

(** ** The first reflow *)

(** An [IntersectionObserverEntry], as far as [#handleIntersection] reads
    it: [isIntersecting] and [boundingClientRect.height]. *)
Record IntersectionEntry : Type := mkEntry {
  isIntersecting : bool;
  boundingClientRect_height : Z
}.

(** [#handleIntersection].  Besides the state it returns the height the
    timeout it queues will run the first reflow with, [None] when it queues
    none. *)
Definition handleIntersection (entries : list IntersectionEntry) (s : State)
  : State * option Z :=
  match nth_error entries 0 with
  | Some entry =>
      if isIntersecting entry then
        let o := observers s in
        (set_observers
           (mkObservers (resizeObserver o) (mutationObserver o) []) s,
         Some (boundingClientRect_height entry))
      else (s, None)
  | None => (s, None)
  end.

(** [querySelector(sel)?.remove()] on the children: the first child [sel]
    matches is removed. *)
Fixpoint removeFirst (sel : Child -> bool) (cs : list Child) : list Child :=
  match cs with
  | [] => []
  | c :: rest => if sel c then rest else c :: removeFirst sel rest
  end.

(** The selector ':scope > template[shadowrootmode="open"]' on one child,
    [shadowrootmode] giving the attribute of that name of an element. *)
Definition leftoverTemplate (shadowrootmode : ElemId -> option string)
    (c : Child) : bool :=
  child_is_template c
  && match shadowrootmode (child_id c) with
     | Some v => String.eqb v "open"
     | None => false
     end.

(** The function [#handleIntersection] hands to [setTimeout]: the leftover
    template is removed, then the list is reflowed with the height of the
    entry. *)
Definition firstReflow (shadowrootmode : ElemId -> option string)
    (L : Layout) (height : Z) (s : State) : Completion :=
  reflowItems L height None
    (set_children
       (removeFirst (leftoverTemplate shadowrootmode) (children s)) s).

(** The events that reset the list: [showAll] and [disabled="true"]. *)
Definition isDisabling (e : Event) : bool :=
  match e with
  | ShowAll _ => true
  | SetDisabled v _ => String.eqb v "true"
  | _ => false
  end.

(** The menu as injected dynamically: its template is still the first
    child. *)
Definition injectedMenu : State :=
  set_children (mkChild 0 "" None true :: children menu) menu.

(** ** Volume pricing tiers *)

Module VolumePricing.

(** The value of a digit of radix 16. *)
Definition hexDigit (c : ascii) : option Z :=
  let n := nat_of_ascii c in
  if (48 <=? n) && (n <=? 57) then Some (Z.of_nat (n - 48))
  else if (65 <=? n) && (n <=? 70) then Some (Z.of_nat (n - 55))
  else if (97 <=? n) && (n <=? 102) then Some (Z.of_nat (n - 87))
  else None.

(** Value of the longest prefix of digits of radix 16. *)
Fixpoint hexDigits (s : string) (acc : option Z) : option Z :=
  match s with
  | String c rest =>
      match hexDigit c with
      | Some d =>
          hexDigits rest
            (Some (16 * (match acc with Some a => a | None => 0 end) + d)%Z)
      | None => acc
      end
  | EmptyString => acc
  end.

(** [parseInt(s)] without a radix: as with radix 10, except that a body
    starting with "0x" or "0X" is read in radix 16.  The result is the
    integer the digits spell.  The code ends with the conversion of that
    integer to a double, which leaves it as it is up to 2^53 in magnitude
    and may round it beyond: [isExact] below is that range, and the
    theorems on the tiers assume it of every number they compare. *)
Definition parseInt (s : string) : JS.number :=
  let trimmed := JS.trimStart s in
  let '(sign, body) :=
    match trimmed with
    | String "-"%char rest => ((-1)%Z, rest)
    | String "+"%char rest => (1%Z, rest)
    | _ => (1%Z, trimmed)
    end in
  let hex (rest : string) :=
    match hexDigits rest None with
    | None => JS.NaN
    | Some m => JS.Int (sign * m)
    end in
  match body with
  | String "0"%char (String "x"%char rest) => hex rest
  | String "0"%char (String "X"%char rest) => hex rest
  | _ =>
      match JS.digits body None with
      | None => JS.NaN
      | Some m => JS.Int (sign * m)
      end
  end.

(** The numbers for which [JS.Int z] is the double of the code whatever
    the digits read: NaN, and the integers from -2^53 to 2^53, each of which
    a double holds without rounding. *)
Definition isExact (n : JS.number) : bool :=
  match n with
  | JS.NaN => true
  | JS.Int z => (Z.abs z <=? 2 ^ 53)%Z
  end.

(** [a >= b] on numbers; false as soon as one is NaN. *)
Definition ge (a b : JS.number) : bool :=
  match a, b with
  | JS.Int x, JS.Int y => (y <=? x)%Z
  | _, _ => false
  end.

(** A row matched by '.volume-pricing-info__row[data-quantity]': whether it
    is an [HTMLElement], its [data-quantity] attribute, and whether its
    class list holds 'volume-pricing-info__row--active'. *)
Record Row : Type := mkRow {
  row_isHTMLElement : bool;
  row_quantity : string;
  row_active : bool
}.

Definition setActive (b : bool) (row : Row) : Row :=
  mkRow (row_isHTMLElement row) (row_quantity row) b.

(** [parseInt(row.dataset.quantity || '0')] *)
Definition threshold (row : Row) : JS.number :=
  parseInt (if JS.truthy (row_quantity row) then row_quantity row else "0").

(** Every row's [data-quantity] reads as a number in the range of
    [isExact]. *)
Definition exactTiers (rows : list Row) : bool :=
  forallb (fun row => isExact (threshold row)) rows.

(** The test of the loop body:
    [row instanceof HTMLElement &&
     quantity >= parseInt(row.dataset.quantity || '0')]. *)
Definition qualifies (quantity : JS.number) (row : Row) : bool :=
  row_isHTMLElement row && ge quantity (threshold row).

(** The [for] loop of [updateActiveTier] from row number [i] on: every row
    loses the active class, and [activeTier] ends as the last row that
    qualifies (rows are named by their position). *)
Fixpoint tierLoop (quantity : JS.number) (rows : list Row) (i : nat)
    (activeTier : option nat) : list Row * option nat :=
  match rows with
  | [] => ([], activeTier)
  | row :: rest =>
      let row := setActive false row in
      let activeTier := if qualifies quantity row then Some i else activeTier in
      let '(rest, activeTier) := tierLoop quantity rest (S i) activeTier in
      (row :: rest, activeTier)
  end.

(** [row.classList.add(active)] on the row at position [i]. *)
Fixpoint activate (i : nat) (rows : list Row) : list Row :=
  match rows, i with
  | [], _ => []
  | row :: rest, O => setActive true row :: rest
  | row :: rest, S j => row :: activate j rest
  end.

(** [updateActiveTier(quantity)]; [rows] is the result of the query on the
    popover of the enclosing anchored popover, [None] when the popover is
    not to be had ([if (!rows) return]). *)
Definition updateActiveTier (quantity : JS.number) (rows : option (list Row))
  : option (list Row) :=
  match rows with
  | None => None
  | Some rows =>
      let '(rows, activeTier) := tierLoop quantity rows 0 None in
      Some match activeTier with
           | Some i => activate i rows
           | None => rows
           end
  end.

(** A price list of three tiers: from 1, from 10 and from 50 pieces, the
    last one highlighted. *)
Definition threeTiers : list Row :=
  [mkRow true "1" false; mkRow true "10" false; mkRow true "50" true].

(** The same tiers listed from the highest down. *)
Definition descendingTiers : list Row :=
  [mkRow true "50" false; mkRow true "10" false; mkRow true "1" false].

End VolumePricing.

(** ** The header that listens for the notification *)

Module Header.

(** What [HeaderComponent] keeps for the menu: whether the class list of
    [refs.headerDrawerContainer] holds 'desktop:hidden', whether that of
    [refs.headerMenu] holds 'hidden', the private [#menuDrawerHiddenWidth]
    ([None] is [null]), and the [--header-height] written on the body, in
    px. *)
Record Component : Type := mkComponent {
  drawerContainer_desktopHidden : bool;
  headerMenu_hidden : bool;
  menuDrawerHiddenWidth : option Z;
  body_header_height : option Z
}.

(** [#updateMenuVisibility(hideMenu)]; [innerWidth] is [window.innerWidth]
    at the time of the call. *)
Definition updateMenuVisibility (hideMenu : bool) (innerWidth : Z)
    (c : Component) : Component :=
  if hideMenu then
    let c :=
      mkComponent false (headerMenu_hidden c) (menuDrawerHiddenWidth c)
        (body_header_height c) in
    let c :=
      mkComponent (drawerContainer_desktopHidden c) (headerMenu_hidden c)
        (Some innerWidth) (body_header_height c) in
    mkComponent (drawerContainer_desktopHidden c) true
      (menuDrawerHiddenWidth c) (body_header_height c)
  else
    let c :=
      mkComponent true (headerMenu_hidden c) (menuDrawerHiddenWidth c)
        (body_header_height c) in
    let c :=
      mkComponent (drawerContainer_desktopHidden c) (headerMenu_hidden c)
        None (body_header_height c) in
    mkComponent (drawerContainer_desktopHidden c) false
      (menuDrawerHiddenWidth c) (body_header_height c).

(** [#handleOverflowMinimum(event)], [minimumReached] being
    [event.detail.minimumReached]. *)
Definition handleOverflowMinimum (minimumReached : bool) (innerWidth : Z)
    (c : Component) : Component :=
  updateMenuVisibility minimumReached innerWidth c.

(** The [blockSize] of a box, a non-negative double, as a fraction. *)
Record BoxSize : Type := mkBoxSize {
  blockSize_num : Z;
  blockSize_den : positive
}.

(** [Math.round]: the nearest integer, a tie going up. *)
Definition MathRound (b : BoxSize) : Z :=
  ((2 * blockSize_num b + Zpos (blockSize_den b))
   / (2 * Zpos (blockSize_den b)))%Z.

(** Truthiness of [#menuDrawerHiddenWidth]: [null] and 0 are falsy. *)
Definition truthyWidth (w : option Z) : bool :=
  match w with
  | Some z => negb (z =? 0)%Z
  | None => false
  end.

(** The callback of the header's resize observer; [entry] is the first
    entry ([None] when there is none), given by its [borderBoxSize]. *)
Definition resizeCallback (entry : option (list BoxSize)) (innerWidth : Z)
    (c : Component) : Component :=
  match entry with
  | None => c
  | Some borderBoxSize =>
      match nth_error borderBoxSize 0 with
      | None => c
      | Some size =>
          let roundedHeaderHeight := MathRound size in
          let c :=
            mkComponent (drawerContainer_desktopHidden c)
              (headerMenu_hidden c) (menuDrawerHiddenWidth c)
              (Some roundedHeaderHeight) in
          if truthyWidth (menuDrawerHiddenWidth c)
             && match menuDrawerHiddenWidth c with
                | Some w => (innerWidth >? w)%Z
                | None => false
                end
          then updateMenuVisibility false innerWidth c
          else c
      end
  end.

(** What reaches the header while it is connected: a bubbling
    'overflowMinimum' event or a resize, each with the window width at that
    time. *)
Inductive Event : Type :=
| OverflowMinimum (minimumReached : bool) (innerWidth : Z)
| Resized (entry : option (list BoxSize)) (innerWidth : Z).

Definition step (e : Event) (c : Component) : Component :=
  match e with
  | OverflowMinimum b w => handleOverflowMinimum b w c
  | Resized entry w => resizeCallback entry w c
  end.

Definition run (es : list Event) (c : Component) : Component :=
  fold_left (fun c e => step e c) es c.

(** On desktop exactly one of the menu and the drawer is shown, and the
    width is recorded exactly while the menu is hidden. *)
Definition consistent (c : Component) : Prop :=
  headerMenu_hidden c = negb (drawerContainer_desktopHidden c)
  /\ (menuDrawerHiddenWidth c <> None <-> headerMenu_hidden c = true).

(** A header as the markup has it, before any notification. *)
Definition initial : Component := mkComponent true false None None.

End Header.

(** The list before its items have been slotted in: the only child sits in
    the "more" slot. *)
Definition emptyMenu : State :=
  set_children [mkChild 9 "more" None false] menu.


(** ** The header's scroll state *)

Module HeaderScroll.

(** What [HeaderComponent] keeps for its sticky behaviour: the [sticky]
    attribute, the mode the intersection observer was created with ([None]
    while there is none), [#offscreen], [#lastScrollTop], whether
    [#timeout] and [#scrollRafId] hold an id, whether the timer of
    [#timeout] is still to fire, the two [dataset] entries and the
    [data-animating] attribute. *)
Record Component : Type := mkComponent {
  sticky : option string;
  alwaysSticky : option bool;
  offscreen : bool;
  lastScrollTop : Z;
  timeout : bool;
  timerPending : bool;
  scrollRafId : bool;
  stickyState : option string;
  scrollDirection : option string;
  animating : bool
}.

Definition set_offscreen (v : bool) (c : Component) : Component :=
  mkComponent (sticky c) (alwaysSticky c) v (lastScrollTop c) (timeout c)
    (timerPending c) (scrollRafId c) (stickyState c) (scrollDirection c)
    (animating c).

Definition set_lastScrollTop (v : Z) (c : Component) : Component :=
  mkComponent (sticky c) (alwaysSticky c) (offscreen c) v (timeout c)
    (timerPending c) (scrollRafId c) (stickyState c) (scrollDirection c)
    (animating c).

(** [#timeout] and the timer behind it. *)
Definition set_timeout (id pending : bool) (c : Component) : Component :=
  mkComponent (sticky c) (alwaysSticky c) (offscreen c) (lastScrollTop c) id
    pending (scrollRafId c) (stickyState c) (scrollDirection c) (animating c).

Definition set_scrollRafId (v : bool) (c : Component) : Component :=
  mkComponent (sticky c) (alwaysSticky c) (offscreen c) (lastScrollTop c)
    (timeout c) (timerPending c) v (stickyState c) (scrollDirection c)
    (animating c).

Definition set_stickyState (v : string) (c : Component) : Component :=
  mkComponent (sticky c) (alwaysSticky c) (offscreen c) (lastScrollTop c)
    (timeout c) (timerPending c) (scrollRafId c) (Some v) (scrollDirection c)
    (animating c).

Definition set_scrollDirection (v : string) (c : Component) : Component :=
  mkComponent (sticky c) (alwaysSticky c) (offscreen c) (lastScrollTop c)
    (timeout c) (timerPending c) (scrollRafId c) (stickyState c) (Some v)
    (animating c).

Definition set_animating (v : bool) (c : Component) : Component :=
  mkComponent (sticky c) (alwaysSticky c) (offscreen c) (lastScrollTop c)
    (timeout c) (timerPending c) (scrollRafId c) (stickyState c)
    (scrollDirection c) v.

(** [value === literal] on an attribute or dataset entry that may be
    missing. *)
Definition equals (literal : string) (value : option string) : bool :=
  match value with
  | Some v => String.eqb v literal
  | None => false
  end.

(** [#updateScrollState], with the [scrollTop] of the document and the top
    of the header's bounding rectangle at the time of the call. *)
Definition updateScrollState (scrollTop headerTop : Z) (c : Component)
  : Component :=
  let stickyMode := sticky c in
  if negb (offscreen c) && negb (equals "always" stickyMode) then c
  else
    let isScrollingUp := (scrollTop <? lastScrollTop c)%Z in
    let isAtTop := (headerTop >=? 0)%Z in
    let c := if timeout c then set_timeout false false c else c in
    if equals "always" stickyMode then
      let c :=
        if isAtTop then set_scrollDirection "none" c
        else if isScrollingUp then set_scrollDirection "up" c
        else set_scrollDirection "down" c in
      set_lastScrollTop scrollTop c
    else
      let c :=
        if isScrollingUp then
          let c := set_animating false c in
          if isAtTop then
            let c := set_offscreen false c in
            let c := set_stickyState "inactive" c in
            set_scrollDirection "none" c
          else
            let c := set_stickyState "active" c in
            set_scrollDirection "up" c
        else if equals "active" (stickyState c) then
          let c := set_scrollDirection "none" c in
          let c := set_animating true c in
          set_timeout true true c
        else
          let c := set_scrollDirection "none" c in
          set_stickyState "idle" c in
      set_lastScrollTop scrollTop c.

(** [#handleWindowScroll] *)
Definition handleWindowScroll (c : Component) : Component :=
  if scrollRafId c then c else set_scrollRafId true c.

(** The callback [#handleWindowScroll] hands to [requestAnimationFrame]. *)
Definition animationFrame (scrollTop headerTop : Z) (c : Component)
  : Component :=
  updateScrollState scrollTop headerTop (set_scrollRafId false c).

(** The callback [#updateScrollState] hands to [setTimeout]. *)
Definition hideTimeout (c : Component) : Component :=
  set_animating false (set_stickyState "idle" c).

(** The callback of the intersection observer; [entry] is the first entry,
    given by its [isIntersecting].  In the always-sticky mode the callback
    also hands [dataset.themeColor] to [changeMetaThemeColor], which acts on
    the document and on nothing kept here. *)
Definition intersectionCallback (entry : option bool) (c : Component)
  : Component :=
  match alwaysSticky c, entry with
  | Some always, Some isIntersecting =>
      if always
      then set_stickyState (if isIntersecting then "inactive" else "active") c
      else set_offscreen
             (negb isIntersecting || equals "active" (stickyState c)) c
  | _, _ => c
  end.

Inductive Event : Type :=
| Scroll
| Frame (scrollTop headerTop : Z)
| HideTimer
| Intersection (entry : option bool).

(** One turn of the event loop: a frame runs only when one is requested, the
    hide timer fires only while it is pending. *)
Definition step (e : Event) (c : Component) : Component :=
  match e with
  | Scroll => handleWindowScroll c
  | Frame scrollTop headerTop =>
      if scrollRafId c then animationFrame scrollTop headerTop c else c
  | HideTimer =>
      if timerPending c
      then hideTimeout (set_timeout (timeout c) false c) else c
  | Intersection entry => intersectionCallback entry c
  end.

Definition run (es : list Event) (c : Component) : Component :=
  fold_left (fun c e => step e c) es c.

(** A header with [sticky="scroll-up"], as connected. *)
Definition scrollUpHeader : Component :=
  mkComponent (Some "scroll-up") (Some false) false 0 false false false None
    None false.

End HeaderScroll.
(** ** [parseInt] on a few attribute values *)

Example parseInt10_plain : JS.parseInt10 "2" = JS.Int 2.
Proof. reflexivity. Qed.

Example parseInt10_prefix : JS.parseInt10 "  -12px" = JS.Int (-12).
Proof. reflexivity. Qed.

Example parseInt10_no_digit : JS.parseInt10 "two" = JS.NaN.
Proof. reflexivity. Qed.

Example parseInt10_sign_only : JS.parseInt10 "-" = JS.NaN.
Proof. reflexivity. Qed.

(** ** Facts about the measuring loop *)

Lemma measure_from (L : Layout) (els : list Child) (m0 : Measure) :
  fold_left (measureElement L) els m0 =
  {| visibleElements :=
       visibleElements m0 ++ idsOf (filter (fun c => negb (overflows L c)) els);
     overflowingElements :=
       overflowingElements m0 ++ idsOf (filter (overflows L) els);
     placeholderWidth :=
       match overflowingElements m0, filter (overflows L) els with
       | [], c :: _ => width (elementRect L (child_id c))
       | _, _ => placeholderWidth m0
       end;
     hasOverflow := hasOverflow m0 || existsb (overflows L) els |}.
Proof.
  revert m0.
  induction els as [|c els IH]; intros [vis ovf pw ho]; simpl.
  - rewrite !app_nil_r, orb_false_r. destruct ovf; reflexivity.
  - rewrite IH. unfold measureElement. fold (overflows L c).
    destruct (overflows L c); simpl.
    + rewrite <- app_assoc, orb_true_r. simpl.
      destruct ovf as [|o ovf]; reflexivity.
    + rewrite <- app_assoc. reflexivity.
Qed.

Lemma measure_visible (L : Layout) (els : list Child) :
  visibleElements (measure L els) =
  idsOf (filter (fun c => negb (overflows L c)) els).
Proof. unfold measure. rewrite measure_from. reflexivity. Qed.

Lemma measure_overflowing (L : Layout) (els : list Child) :
  overflowingElements (measure L els) = idsOf (filter (overflows L) els).
Proof. unfold measure. rewrite measure_from. reflexivity. Qed.

Lemma measure_hasOverflow (L : Layout) (els : list Child) :
  hasOverflow (measure L els) = existsb (overflows L) els.
Proof. unfold measure. rewrite measure_from. reflexivity. Qed.

Lemma measure_placeholderWidth (L : Layout) (els : list Child) :
  placeholderWidth (measure L els) =
  match filter (overflows L) els with
  | c :: _ => width (elementRect L (child_id c))
  | [] => 0%Z
  end.
Proof.
  unfold measure. rewrite measure_from. simpl.
  destruct (filter (overflows L) els); reflexivity.
Qed.

Lemma existsb_filter_nil {A : Type} (f : A -> bool) (l : list A) :
  existsb f l = match filter f l with [] => false | _ :: _ => true end.
Proof.
  induction l as [|a l IH]; simpl; [reflexivity|].
  destruct (f a); simpl; [reflexivity|exact IH].
Qed.

Lemma includes_overflowing (L : Layout) (els : list Child) (c : Child) :
  In c els ->
  includes (idsOf (filter (overflows L) els)) (child_id c) = overflows L c.
Proof.
  intros Hin. unfold includes, idsOf.
  destruct (overflows L c) eqn:Ho.
  - apply existsb_exists. exists (child_id c). split; [|apply Nat.eqb_refl].
    apply in_map. apply filter_In. split; assumption.
  - apply not_true_is_false. intros H.
    apply existsb_exists in H. destruct H as [x [Hx Heq]].
    apply Nat.eqb_eq in Heq. subst x.
    apply in_map_iff in Hx. destruct Hx as [d [Hid Hd]].
    apply filter_In in Hd. destruct Hd as [_ Hd].
    unfold overflows in *. rewrite Hid in Hd. congruence.
Qed.

(** ** Facts about one pass *)

Lemma lastOf_None {A : Type} (l : list A) : lastOf l = None <-> l = [].
Proof.
  unfold lastOf. split.
  - intros H. apply nth_error_None in H.
    destruct l as [|a l]; [reflexivity|]. simpl in H. lia.
  - intros ->. reflexivity.
Qed.

Lemma reflowPass_empty (r : Refs) (L : Layout) (h : Z) (p : option ElemId)
    (s : State) :
  elementsOf r s = [] ->
  reflowPass r L h p s =
  observeChanges (moveItemsToDefaultSlot r (unobserveChanges s)).
Proof.
  intros He. unfold reflowPass. fold (elementsOf r s).
  rewrite (proj2 (lastOf_None _) He). reflexivity.
Qed.

Lemma reflowPass_nonempty (r : Refs) (L : Layout) (h : Z) (p : option ElemId)
    (s : State) :
  elementsOf r s <> [] ->
  reflowPass r L h p s =
  applyMeasure r (measure L (elementsOf r s)) p
    (prepareMeasurement h p
       (moveItemsToDefaultSlot r (unobserveChanges s))).
Proof.
  intros He. unfold reflowPass. fold (elementsOf r s).
  destruct (lastOf (elementsOf r s)) eqn:E; [reflexivity|].
  apply lastOf_None in E. contradiction.
Qed.

(** Evaluation of the straight-line writes once the branches are fixed. *)
Ltac run_writes :=
  lazy beta iota zeta delta
    [applyMeasure prepareMeasurement updateMinimumReached observeChanges
     unobserveChanges moveItemsToDefaultSlot styleOrder minimumItems
     JS.truthy Z.gtb Z.compare
     set_host set_children set_refs set_listEl set_moreSlot set_placeholder
     set_observers set_reflowListeners set_scheduled set_pending
     set_dispatched
     host shadowRoot children refs listEl moreSlot placeholder observers
     reflowListeners scheduled pending dispatched
     attr_disabled attr_minimum_items attr_minimum_reached
     host_overflow_count
     list_height list_flex_wrap list_counter_reset list_overflow
     more_order more_hidden ph_width ph_display ph_hidden
     resizeObserver mutationObserver intersectionObserver
     visibleElements overflowingElements placeholderWidth hasOverflow].

(** Every branch of a pass is decided by the shape of its inputs. *)
Ltac fix_branches s m p h :=
  destruct s as [[d mi mr oc] sr cs rf l ms ph ob rl sc pe di];
  destruct m as [vis ovf pw [|]];
  destruct p as [e|];
  destruct h as [|hp|hn];
  destruct mi as [[|a v]|].

(** The state a pass over a non-empty slot ends in, field by field. *)
Lemma applyMeasure_prepareMeasurement (r : Refs) (m : Measure) (h : Z)
    (p : option ElemId) (s : State) :
  applyMeasure r m p (prepareMeasurement h p s) =
  mkState
    (mkHost (attr_disabled (host s)) (attr_minimum_items (host s))
       (if hasOverflow m then
          match minimumItems s with
          | Some mi =>
              if JS.length_lt (List.length (visibleElements m)) mi
              then Some "" else None
          | None => attr_minimum_reached (host s)
          end
        else attr_minimum_reached (host s))
       (Some (List.length (overflowingElements m))))
    (shadowRoot s)
    (map (fun element =>
            if String.eqb (child_slot element) (defaultSlot_name r) then
              let targetSlot :=
                if includes (overflowingElements m) (child_id element)
                then overflowSlot_name r else defaultSlot_name r in
              if negb (String.eqb (child_slot element) targetSlot)
              then set_slot targetSlot element else element
            else element)
       match p with
       | Some e =>
           map (fun c => if child_id c =? e then set_order None c else c)
             (map (fun c =>
                     if child_id c =? e then set_order (Some "-1") c else c)
                (children s))
       | None => children s
       end)
    (refs s)
    (mkListEl (if (h >? 0)%Z then Some h else list_height (listEl s))
       (Some "wrap") (Some (List.length (overflowingElements m)))
       (Some "unset"))
    (mkMoreSlot (if hasOverflow m then None else Some "-1")
       (negb (hasOverflow m)))
    (if hasOverflow m
     then mkPlaceholder (Some (placeholderWidth m))
            (ph_display (placeholder s)) false
     else mkPlaceholder (ph_width (placeholder s))
            (ph_display (placeholder s)) true)
    (mkObservers true true (intersectionObserver (observers s)))
    (reflowListeners s) (scheduled s) (pending s)
    (dispatched s ++
     (if hasOverflow m then
        match minimumItems s with
        | Some mi => [JS.length_lt (List.length (visibleElements m)) mi]
        | None => []
        end
      else [])).
Proof.
  fix_branches s m p h; run_writes; rewrite ?app_nil_r; reflexivity.
Qed.

Lemma moved_children (r : Refs) (s : State) :
  children (moveItemsToDefaultSlot r (unobserveChanges s)) =
  map (fun element =>
         if String.eqb (child_slot element) (overflowSlot_name r) then
           if negb (String.eqb (child_slot element) (defaultSlot_name r))
           then set_slot (defaultSlot_name r) element
           else element
         else element)
    (children s).
Proof. reflexivity. Qed.

(** After the reset no child is left in the overflow slot. *)
Lemma moved_not_overflow (s : State) (c : Child) :
  In c (children (moveItemsToDefaultSlot selected_refs (unobserveChanges s))) ->
  String.eqb (child_slot c) "overflow" = false.
Proof.
  rewrite moved_children. intros H.
  apply in_map_iff in H. destruct H as [c0 [Hc _]]. subst c. simpl.
  destruct (String.eqb (child_slot c0) "overflow") eqn:E.
  - apply String.eqb_eq in E. rewrite E. reflexivity.
  - exact E.
Qed.

Lemma ids_filter_map (g : Child -> Child) (P Q : Child -> bool)
    (l : list Child) :
  (forall c, In c l -> child_id (g c) = child_id c /\ P (g c) = Q c) ->
  idsOf (filter P (map g l)) = idsOf (filter Q l).
Proof.
  induction l as [|c l IH]; intros H; simpl; [reflexivity|].
  destruct (H c (or_introl eq_refl)) as [Hid HP].
  rewrite HP. destruct (Q c); simpl; rewrite IH, ?Hid; auto.
  - intros c' Hc'. apply H. right. exact Hc'.
  - intros c' Hc'. apply H. right. exact Hc'.
Qed.

Lemma filter_filter {A : Type} (f g : A -> bool) (l : list A) :
  filter f (filter g l) = filter (fun a => g a && f a) l.
Proof.
  induction l as [|a l IH]; simpl; [reflexivity|].
  destruct (g a); simpl; [destruct (f a)|]; rewrite ?IH; reflexivity.
Qed.

Lemma includes_overflowing_id (L : Layout) (els : list Child) (c : Child) :
  In (child_id c) (idsOf els) ->
  includes (idsOf (filter (overflows L) els)) (child_id c) = overflows L c.
Proof.
  intros Hin. apply in_map_iff in Hin. destruct Hin as [c0 [Hid Hc0]].
  replace (overflows L c) with (overflows L c0)
    by (unfold overflows; rewrite Hid; reflexivity).
  rewrite <- Hid. apply includes_overflowing. exact Hc0.
Qed.

(** The children a pass leaves behind: where each one is placed. *)
Lemma reflowPass_placement (L : Layout) (h : Z) (p : option ElemId)
    (s : State) :
  exists g : Child -> Child,
    children (reflowPass selected_refs L h p s) =
    map g (children (moveItemsToDefaultSlot selected_refs (unobserveChanges s)))
    /\ forall c,
         In c (children
                 (moveItemsToDefaultSlot selected_refs (unobserveChanges s))) ->
         child_id (g c) = child_id c /\
         child_slot (g c) =
         (if String.eqb (child_slot c) ""
          then if overflows L c then "overflow" else ""
          else child_slot c).
Proof.
  destruct (elementsOf selected_refs s) as [|c0 els0] eqn:E.
  - exists (fun c => c). rewrite reflowPass_empty by exact E.
    split; [symmetry; apply map_id|].
    intros c Hc. split; [reflexivity|].
    destruct (String.eqb (child_slot c) "") eqn:Hs; [|reflexivity].
    exfalso. assert (Hin : In c (elementsOf selected_refs s)).
    { unfold elementsOf, assignedElements. apply filter_In. split; assumption. }
    rewrite E in Hin. exact Hin.
  - assert (Hne : elementsOf selected_refs s <> []) by (rewrite E; discriminate).
    rewrite reflowPass_nonempty by exact Hne.
    rewrite applyMeasure_prepareMeasurement.
    set (cs1 := children
                  (moveItemsToDefaultSlot selected_refs (unobserveChanges s))).
    cbn [children]. rewrite measure_overflowing.
    set (assign := fun element : Child => _).
    exists (fun c =>
              assign match p with
                     | Some e => if child_id c =? e then set_order None c else c
                     | None => c
                     end).
    split.
    + destruct p as [e|].
      * rewrite !map_map. apply map_ext. intros c.
        destruct (child_id c =? e) eqn:Hc; simpl; rewrite ?Hc; reflexivity.
      * reflexivity.
    + intros c Hc.
      assert (Hstep : forall c', child_id c' = child_id c ->
                child_slot c' = child_slot c ->
                child_id (assign c') = child_id c /\
                child_slot (assign c') =
                (if String.eqb (child_slot c) ""
                 then if overflows L c then "overflow" else ""
                 else child_slot c)).
      { intros c' Hid Hslot. subst assign. simpl.
        rewrite Hslot.
        destruct (String.eqb (child_slot c) "") eqn:Hs.
        - assert (Hin : In (child_id c') (idsOf (elementsOf selected_refs s))).
          { rewrite Hid. apply in_map. unfold elementsOf, assignedElements.
            apply filter_In. split; assumption. }
          rewrite (includes_overflowing_id L _ c' Hin).
          replace (overflows L c') with (overflows L c)
            by (unfold overflows; rewrite Hid; reflexivity).
          apply String.eqb_eq in Hs.
          destruct (overflows L c); rewrite Hs; simpl; split; congruence.
        - auto. }
      destruct p as [e|]; [destruct (child_id c =? e)|]; apply Hstep;
        reflexivity.
Qed.

Lemma reflowPass_buckets (L : Layout) (h : Z) (p : option ElemId)
    (s : State) :
  idsOf (visibleBucket (reflowPass selected_refs L h p s)) =
  idsOf (filter (fun c => negb (overflows L c)) (elementsOf selected_refs s))
  /\
  idsOf (overflowBucket (reflowPass selected_refs L h p s)) =
  idsOf (filter (overflows L) (elementsOf selected_refs s)).
Proof.
  destruct (reflowPass_placement L h p s) as [g [Hch Hg]].
  unfold visibleBucket, overflowBucket, elementsOf, assignedElements.
  rewrite Hch, !filter_filter. simpl defaultSlot_name.
  split; apply ids_filter_map; intros c Hc;
    destruct (Hg c Hc) as [Hid Hslot]; (split; [exact Hid|]);
    rewrite Hslot; pose proof (moved_not_overflow s c Hc) as Hno;
    destruct (String.eqb (child_slot c) "") eqn:Hs; simpl;
    rewrite ?Hs, ?Hno; try reflexivity;
    destruct (overflows L c); reflexivity.
Qed.

Lemma reflowPass_observers (r : Refs) (L : Layout) (h : Z)
    (p : option ElemId) (s : State) :
  observers (reflowPass r L h p s) =
  mkObservers true true (intersectionObserver (observers s)).
Proof.
  destruct (elementsOf r s) eqn:E.
  - rewrite reflowPass_empty by exact E. reflexivity.
  - rewrite reflowPass_nonempty by (rewrite E; discriminate).
    rewrite applyMeasure_prepareMeasurement. reflexivity.
Qed.

(** ** The claims *)

(** C10, counterexample.  On the element as parsed, before [#initialize]
    has assigned [#refs], a reflow throws at the destructuring of [#refs]
    and never reaches [#observeChanges]: neither observer observes the
    component afterwards.  Setting [disabled] to "false" on that element is
    such an invocation. *)
Lemma reflow_before_initialize_throws :
  refs parsedMenu = None
  /\ reflowItems narrow 0 None parsedMenu = Throw TypeError parsedMenu
  /\ resizeObserver (observers parsedMenu) = false
  /\ mutationObserver (observers parsedMenu) = false
  /\ exists s',
       setAttribute_disabled "false" narrow parsedMenu = Throw TypeError s'
       /\ resizeObserver (observers s') = false
       /\ mutationObserver (observers s') = false.
Proof.
  repeat split. eexists. repeat split.
Qed.

(** C10, amended.  Every invocation of a reflow pass on a component whose
    [#refs] have been assigned by [#initialize], the early return on an
    empty slot included and whatever the value of the [disabled] attribute,
    returns normally with the resize and the mutation observer observing
    the component again; an invocation before [#refs] are assigned throws
    at the destructuring and leaves the observers, like the rest of the
    state, as they were. *)
Theorem reflowItems_reconnects_observers (L : Layout) (h : Z)
    (p : option ElemId) (s : State) :
  match refs s with
  | Some _ =>
      exists s',
        reflowItems L h p s = Normal s'
        /\ resizeObserver (observers s') = true
        /\ mutationObserver (observers s') = true
  | None => reflowItems L h p s = Throw TypeError s
  end.
Proof.
  unfold reflowItems. destruct (refs s) as [r|]; [|reflexivity].
  eexists. split; [reflexivity|].
  rewrite reflowPass_observers. split; reflexivity.
Qed.

Lemma reflowItems_reconnects_observers_witness :
  exists s',
    reflowItems narrow 0 None (state_of (showAll wide menu)) = Normal s'
    /\ resizeObserver (observers s') = true
    /\ mutationObserver (observers s') = true.
Proof.
  exact (reflowItems_reconnects_observers narrow 0 None
           (state_of (showAll wide menu))).
Defined.

Lemma in_ids_filter (f : Child -> bool) (els : list Child) (c : Child) :
  (forall a b, child_id a = child_id b -> f a = f b) ->
  In c els ->
  (In (child_id c) (idsOf (filter f els)) <-> f c = true).
Proof.
  intros Hf Hc. unfold idsOf. split.
  - intros H. apply in_map_iff in H. destruct H as [d [Hid Hd]].
    apply filter_In in Hd. destruct Hd as [_ Hd].
    rewrite <- (Hf d c Hid). exact Hd.
  - intros H. apply in_map. apply filter_In. split; assumption.
Qed.

Lemma overflows_by_id (L : Layout) (a b : Child) :
  child_id a = child_id b -> overflows L a = overflows L b.
Proof. intros H. unfold overflows. rewrite H. reflexivity. Qed.

(** C8.  In every reflow pass an element whose top equals the top of the
    "more" slot is assigned to the visible bucket, and an element is assigned
    to the overflow bucket exactly when its top is strictly greater. *)
Theorem reflowItems_tie_is_visible (L : Layout) (h : Z) (p : option ElemId)
    (s : State) :
  refs s = Some selected_refs ->
  exists s',
    reflowItems L h p s = Normal s'
    /\ (forall c, In c (elementsOf selected_refs s) ->
         (top (elementRect L (child_id c)) = top (moreSlotRect L) ->
          In (child_id c) (idsOf (visibleBucket s'))
          /\ ~ In (child_id c) (idsOf (overflowBucket s')))
         /\ (In (child_id c) (idsOf (overflowBucket s')) <->
             (top (elementRect L (child_id c)) > top (moreSlotRect L))%Z)
         /\ (In (child_id c) (idsOf (visibleBucket s')) <->
             (top (elementRect L (child_id c)) <= top (moreSlotRect L))%Z))
    /\ forall c, In c (overflowBucket s') ->
         (top (elementRect L (child_id c)) > top (moreSlotRect L))%Z.
Proof.
  intros Hr. unfold reflowItems. rewrite Hr.
  eexists. split; [reflexivity|].
  destruct (reflowPass_buckets L h p s) as [Hv Ho].
  split.
  2:{ intros c Hc. apply (in_map child_id) in Hc. fold (idsOf) in Hc.
      unfold idsOf in Ho. rewrite Ho in Hc.
      apply in_map_iff in Hc. destruct Hc as [d [Hid Hd]].
      apply filter_In in Hd. destruct Hd as [_ Hd].
      unfold overflows in Hd. rewrite Hid in Hd.
      apply Z.gtb_gt in Hd. exact Hd. }
  intros c Hc.
  rewrite Hv, Ho.
  assert (Hover : In (child_id c)
                    (idsOf (filter (overflows L) (elementsOf selected_refs s)))
                  <-> (top (elementRect L (child_id c))
                       > top (moreSlotRect L))%Z).
  { rewrite (in_ids_filter (overflows L) _ c (overflows_by_id L) Hc).
    unfold overflows. rewrite Z.gtb_gt. lia. }
  assert (Hvis : In (child_id c)
                   (idsOf (filter (fun c => negb (overflows L c))
                             (elementsOf selected_refs s)))
                 <-> (top (elementRect L (child_id c))
                      <= top (moreSlotRect L))%Z).
  { rewrite (in_ids_filter (fun c => negb (overflows L c)) _ c).
    - unfold overflows. rewrite negb_true_iff.
      destruct (Z.gtb_spec (top (elementRect L (child_id c)))
                  (top (moreSlotRect L))); split; intros; try lia;
        try reflexivity; discriminate.
    - intros a b Hab. rewrite (overflows_by_id L a b Hab). reflexivity.
    - exact Hc. }
  split; [|split; assumption].
  intros Heq. split.
  - apply Hvis. lia.
  - intros H. apply Hover in H. lia.
Qed.

Lemma reflowItems_tie_is_visible_witness :
  exists s',
    reflowItems narrow 0 None menu = Normal s'
    /\ (forall c, In c (elementsOf selected_refs menu) ->
         (top (elementRect narrow (child_id c)) = top (moreSlotRect narrow) ->
          In (child_id c) (idsOf (visibleBucket s'))
          /\ ~ In (child_id c) (idsOf (overflowBucket s')))
         /\ (In (child_id c) (idsOf (overflowBucket s')) <->
             (top (elementRect narrow (child_id c))
              > top (moreSlotRect narrow))%Z)
         /\ (In (child_id c) (idsOf (visibleBucket s')) <->
             (top (elementRect narrow (child_id c))
              <= top (moreSlotRect narrow))%Z))
    /\ forall c, In c (overflowBucket s') ->
         (top (elementRect narrow (child_id c))
          > top (moreSlotRect narrow))%Z.
Proof.
  apply (reflowItems_tie_is_visible narrow 0 None menu).
  reflexivity.
Defined.

Lemma overflowBucket_length (L : Layout) (h : Z) (p : option ElemId)
    (s : State) :
  List.length (overflowBucket (reflowPass selected_refs L h p s)) =
  List.length (overflowingElements (measure L (elementsOf selected_refs s))).
Proof.
  rewrite measure_overflowing.
  rewrite <- (proj2 (reflowPass_buckets L h p s)).
  unfold idsOf. rewrite length_map. reflexivity.
Qed.

Lemma visibleBucket_length (L : Layout) (h : Z) (p : option ElemId)
    (s : State) :
  List.length (visibleBucket (reflowPass selected_refs L h p s)) =
  List.length (visibleElements (measure L (elementsOf selected_refs s))).
Proof.
  rewrite measure_visible.
  rewrite <- (proj1 (reflowPass_buckets L h p s)).
  unfold idsOf. rewrite length_map. reflexivity.
Qed.

Lemma hasOverflow_bucket (L : Layout) (h : Z) (p : option ElemId)
    (s : State) :
  hasOverflow (measure L (elementsOf selected_refs s)) =
  match overflowBucket (reflowPass selected_refs L h p s) with
  | [] => false
  | _ :: _ => true
  end.
Proof.
  rewrite measure_hasOverflow, existsb_filter_nil.
  pose proof (proj2 (reflowPass_buckets L h p s)) as H.
  destruct (overflowBucket (reflowPass selected_refs L h p s));
    destruct (filter (overflows L) (elementsOf selected_refs s));
    try reflexivity; discriminate.
Qed.

(** C6, counterexample.  After a pass in which items 2 and 3 overflow, a
    pass in which nothing overflows leaves the placeholder's width at the
    20 units of the earlier pass instead of 0. *)
Lemma placeholder_width_not_reset :
  elementsOf selected_refs menuNarrow <> []
  /\ reflowItems wide 0 None menuNarrow = Normal menuWidened
  /\ overflowBucket menuWidened = []
  /\ ph_width (placeholder menuWidened) = Some 20%Z
  /\ ph_width (placeholder menuWidened) <> Some 0%Z.
Proof.
  vm_compute. repeat split; discriminate.
Qed.

(** C6, amended.  After every reflow pass over a non-empty slot both
    overflow counters equal the size of the overflow bucket and the "more"
    slot is shown exactly when the bucket is non-empty; when an element
    overflows the placeholder's [hidden] flag is cleared and its width is
    that of the first overflowing element, and when none does the
    placeholder is hidden and its width is left as it was.  The pass leaves
    the placeholder's [display] style as it found it, so with the flag
    cleared the placeholder is shown unless [showAll] has set
    [display: none] on it before. *)
Theorem reflowItems_counters_and_placeholder (L : Layout) (h : Z)
    (p : option ElemId) (s : State) :
  refs s = Some selected_refs ->
  elementsOf selected_refs s <> [] ->
  exists s',
    reflowItems L h p s = Normal s'
    /\ list_counter_reset (listEl s') = Some (List.length (overflowBucket s'))
    /\ host_overflow_count (host s') = Some (List.length (overflowBucket s'))
    /\ (more_hidden (moreSlot s') = false <-> overflowBucket s' <> [])
    /\ match overflowBucket s' with
       | first :: _ =>
           ph_width (placeholder s') =
           Some (width (elementRect L (child_id first)))
           /\ ph_hidden (placeholder s') = false
           /\ ph_display (placeholder s') = ph_display (placeholder s)
       | [] =>
           ph_width (placeholder s') = ph_width (placeholder s)
           /\ ph_hidden (placeholder s') = true
           /\ ph_display (placeholder s') = ph_display (placeholder s)
       end.
Proof.
  intros Hr He.
  exists (reflowPass selected_refs L h p s).
  split; [unfold reflowItems; rewrite Hr; reflexivity|].
  pose proof (overflowBucket_length L h p s) as Hlen.
  pose proof (hasOverflow_bucket L h p s) as Hhas.
  pose proof (proj2 (reflowPass_buckets L h p s)) as Hids.
  pose proof (measure_placeholderWidth L (elementsOf selected_refs s)) as Hpw.
  rewrite Hlen.
  destruct (overflowBucket (reflowPass selected_refs L h p s))
    as [|first rest] eqn:Hb;
    rewrite reflowPass_nonempty, applyMeasure_prepareMeasurement by exact He;
    cbn [listEl host moreSlot placeholder list_counter_reset
         host_overflow_count more_hidden];
    rewrite Hhas; cbn [negb ph_width ph_hidden ph_display].
  - repeat split; try reflexivity; try discriminate.
    intros H. contradiction H. reflexivity.
  - repeat split; try reflexivity; try discriminate.
    rewrite Hpw.
    destruct (filter (overflows L) (elementsOf selected_refs s))
      as [|c0 l0]; [discriminate|].
    simpl in Hids. injection Hids as Hid _. rewrite Hid. reflexivity.
Qed.

Lemma reflowItems_counters_and_placeholder_witness :
  exists s',
    reflowItems narrow 0 None menu = Normal s'
    /\ list_counter_reset (listEl s') = Some (List.length (overflowBucket s'))
    /\ host_overflow_count (host s') = Some (List.length (overflowBucket s'))
    /\ (more_hidden (moreSlot s') = false <-> overflowBucket s' <> [])
    /\ match overflowBucket s' with
       | first :: _ =>
           ph_width (placeholder s') =
           Some (width (elementRect narrow (child_id first)))
           /\ ph_hidden (placeholder s') = false
           /\ ph_display (placeholder s') = ph_display (placeholder menu)
       | [] =>
           ph_width (placeholder s') = ph_width (placeholder menu)
           /\ ph_hidden (placeholder s') = true
           /\ ph_display (placeholder s') = ph_display (placeholder menu)
       end.
Proof.
  apply (reflowItems_counters_and_placeholder narrow 0 None menu).
  - reflexivity.
  - vm_compute. discriminate.
Defined.

(** C7, counterexample.  A first pass of the menu on the wide row ends with
    the row still set to wrap and, nothing overflowing, with the "more" slot
    still promoted to the front of the visual order; neither was so before
    the pass. *)
Lemma wrap_and_order_not_restored :
  list_flex_wrap (listEl menu) = None
  /\ more_order (moreSlot menu) = None
  /\ reflowItems wide 0 None menu =
     Normal (reflowPass selected_refs wide 0 None menu)
  /\ list_flex_wrap (listEl (reflowPass selected_refs wide 0 None menu))
     = Some "wrap"
  /\ more_order (moreSlot (reflowPass selected_refs wide 0 None menu))
     = Some "-1".
Proof.
  vm_compute. repeat split.
Qed.

Lemma reflowPass_pinned_order (L : Layout) (h : Z) (e : ElemId) (s : State)
    (r : Refs) (c : Child) :
  elementsOf r s <> [] ->
  In c (children (reflowPass r L h (Some e) s)) ->
  child_id c = e ->
  child_order c = None.
Proof.
  intros He Hc Hid.
  rewrite reflowPass_nonempty, applyMeasure_prepareMeasurement in Hc
    by exact He.
  cbn [children] in Hc.
  apply in_map_iff in Hc. destruct Hc as [x [Hx Hin]].
  apply in_map_iff in Hin. destruct Hin as [y [Hy _]].
  assert (Hxo : child_id x = child_id c /\ child_order x = child_order c).
  { subst c.
    destruct (String.eqb (child_slot x) (defaultSlot_name r));
      [|split; reflexivity].
    destruct (negb _); split; reflexivity. }
  destruct Hxo as [Hxi Hxo]. rewrite <- Hxo. subst x.
  destruct (child_id y =? e) eqn:Hy.
  - reflexivity.
  - exfalso. apply Nat.eqb_neq in Hy. apply Hy. rewrite <- Hid, <- Hxi.
    reflexivity.
Qed.

(** C7, amended.  At the end of every reflow pass over a non-empty slot the
    visual-order promotion of the pinned element is removed and that of the
    "more" slot is removed exactly when an element overflows; the row is
    left set to wrap. *)
Theorem reflowItems_overrides_after_pass (L : Layout) (h : Z)
    (p : option ElemId) (s : State) :
  refs s = Some selected_refs ->
  elementsOf selected_refs s <> [] ->
  exists s',
    reflowItems L h p s = Normal s'
    /\ list_flex_wrap (listEl s') = Some "wrap"
    /\ more_order (moreSlot s') =
       match overflowBucket s' with
       | [] => Some "-1"
       | _ :: _ => None
       end
    /\ forall c, In c (children s') -> Some (child_id c) = p ->
         child_order c = None.
Proof.
  intros Hr He.
  exists (reflowPass selected_refs L h p s).
  split; [unfold reflowItems; rewrite Hr; reflexivity|].
  pose proof (hasOverflow_bucket L h p s) as Hhas.
  split; [|split].
  - rewrite reflowPass_nonempty, applyMeasure_prepareMeasurement by exact He.
    reflexivity.
  - destruct (overflowBucket (reflowPass selected_refs L h p s));
      rewrite reflowPass_nonempty, applyMeasure_prepareMeasurement
        by exact He;
      cbn [moreSlot more_order]; rewrite Hhas; reflexivity.
  - intros c Hc Hp. destruct p as [e|]; [|discriminate].
    injection Hp as Hp.
    exact (reflowPass_pinned_order L h e s selected_refs c He Hc Hp).
Qed.

Lemma reflowItems_overrides_after_pass_witness :
  exists s',
    reflowItems narrow 0 (Some 3) menu = Normal s'
    /\ list_flex_wrap (listEl s') = Some "wrap"
    /\ more_order (moreSlot s') =
       match overflowBucket s' with
       | [] => Some "-1"
       | _ :: _ => None
       end
    /\ forall c, In c (children s') -> Some (child_id c) = Some 3 ->
         child_order c = None.
Proof.
  apply (reflowItems_overrides_after_pass narrow 0 (Some 3) menu).
  - reflexivity.
  - vm_compute. discriminate.
Defined.

Lemma reflowPass_minimum (r : Refs) (L : Layout) (h : Z) (p : option ElemId)
    (s : State) :
  attr_minimum_reached (host (reflowPass r L h p s)) =
  (if hasOverflow (measure L (elementsOf r s)) then
     match minimumItems s with
     | Some mi =>
         if JS.length_lt
              (List.length (visibleElements (measure L (elementsOf r s)))) mi
         then Some "" else None
     | None => attr_minimum_reached (host s)
     end
   else attr_minimum_reached (host s))
  /\ dispatched (reflowPass r L h p s) =
     dispatched s ++
     (if hasOverflow (measure L (elementsOf r s)) then
        match minimumItems s with
        | Some mi =>
            [JS.length_lt
               (List.length (visibleElements (measure L (elementsOf r s))))
               mi]
        | None => []
        end
      else [])
  /\ minimumItems (reflowPass r L h p s) = minimumItems s.
Proof.
  destruct (elementsOf r s) eqn:E.
  - rewrite reflowPass_empty by exact E. cbn [measure fold_left hasOverflow].
    rewrite app_nil_r. repeat split.
  - rewrite reflowPass_nonempty by (rewrite E; discriminate).
    rewrite applyMeasure_prepareMeasurement. rewrite E.
    repeat split.
Qed.

Lemma length_lt_spec (n : nat) (mi : JS.number) :
  JS.length_lt n mi = true <-> exists z, mi = JS.Int z /\ (Z.of_nat n < z)%Z.
Proof.
  destruct mi as [|z]; simpl.
  - split; [discriminate|]. intros [z [H _]]. discriminate.
  - rewrite Z.ltb_lt. split.
    + intros H. exists z. split; [reflexivity|exact H].
    + intros [z' [Hz H]]. injection Hz as ->. exact H.
Qed.

(** C1, counterexample.  A second pass on the unchanged narrow row leaves
    the [minimum-reached] attribute as the first pass set it and still
    dispatches a second notification. *)
Lemma duplicate_notification :
  reflowItems narrow 0 None menu = Normal menuNarrow
  /\ reflowItems narrow 0 None menuNarrow = Normal menuNarrowAgain
  /\ attr_minimum_reached (host menuNarrowAgain) =
     attr_minimum_reached (host menuNarrow)
  /\ children menuNarrowAgain = children menuNarrow
  /\ dispatched menuNarrow = [true]
  /\ dispatched menuNarrowAgain = [true; true].
Proof.
  vm_compute. repeat split.
Qed.

(** C1, amended.  A reflow pass dispatches exactly one notification when
    [minimum-items] is set and an element overflows, carrying whether the
    visible bucket is smaller than the minimum, and none otherwise; whether
    the state changed plays no part. *)
Theorem reflowItems_dispatches_per_pass (L : Layout) (h : Z)
    (p : option ElemId) (s : State) :
  refs s = Some selected_refs ->
  exists s',
    reflowItems L h p s = Normal s'
    /\ dispatched s' =
       dispatched s ++
       match overflowBucket s', minimumItems s with
       | _ :: _, Some mi =>
           [JS.length_lt (List.length (visibleBucket s')) mi]
       | _, _ => []
       end.
Proof.
  intros Hr.
  exists (reflowPass selected_refs L h p s).
  split; [unfold reflowItems; rewrite Hr; reflexivity|].
  destruct (reflowPass_minimum selected_refs L h p s) as [_ [Hd _]].
  rewrite Hd, (hasOverflow_bucket L h p s), visibleBucket_length.
  destruct (overflowBucket (reflowPass selected_refs L h p s));
    [reflexivity|].
  destruct (minimumItems s); reflexivity.
Qed.

Lemma reflowItems_dispatches_per_pass_witness :
  exists s',
    reflowItems narrow 0 None menuNarrow = Normal s'
    /\ dispatched s' =
       dispatched menuNarrow ++
       match overflowBucket s', minimumItems menuNarrow with
       | _ :: _, Some mi =>
           [JS.length_lt (List.length (visibleBucket s')) mi]
       | _, _ => []
       end.
Proof.
  apply (reflowItems_dispatches_per_pass narrow 0 None menuNarrow).
  reflexivity.
Defined.

(** C2, counterexample.  Once the row is widened nothing overflows, the
    three items are visible and [minimum-items] is 2, yet the
    [minimum-reached] attribute set by the earlier pass is still present. *)
Lemma minimum_reached_not_cleared :
  reflowItems wide 0 None menuNarrow = Normal menuWidened
  /\ minimumItems menuWidened = Some (JS.Int 2)
  /\ List.length (visibleBucket menuWidened) = 3
  /\ overflowBucket menuWidened = []
  /\ attr_minimum_reached (host menuWidened) = Some "".
Proof.
  vm_compute. repeat split.
Qed.

(** C2, amended.  After a reflow pass in which an element overflows while
    [minimum-items] is set, the [minimum-reached] attribute is present if
    and only if the visible bucket is strictly smaller than the minimum;
    after any other pass the attribute is as it was before the pass. *)
Theorem reflowItems_minimum_reached (L : Layout) (h : Z)
    (p : option ElemId) (s : State) :
  refs s = Some selected_refs ->
  exists s',
    reflowItems L h p s = Normal s'
    /\ minimumItems s' = minimumItems s
    /\ match overflowBucket s', minimumItems s with
       | _ :: _, Some mi =>
           attr_minimum_reached (host s') <> None <->
           exists z, mi = JS.Int z
                     /\ (Z.of_nat (List.length (visibleBucket s')) < z)%Z
       | _, _ =>
           attr_minimum_reached (host s') = attr_minimum_reached (host s)
       end.
Proof.
  intros Hr.
  exists (reflowPass selected_refs L h p s).
  split; [unfold reflowItems; rewrite Hr; reflexivity|].
  destruct (reflowPass_minimum selected_refs L h p s) as [Ha [_ Hm]].
  split; [exact Hm|].
  rewrite Ha, (hasOverflow_bucket L h p s), visibleBucket_length.
  destruct (overflowBucket (reflowPass selected_refs L h p s));
    [reflexivity|].
  destruct (minimumItems s) as [mi|]; [|reflexivity].
  rewrite <- length_lt_spec.
  destruct (JS.length_lt _ mi); split; intros H; try reflexivity;
    try discriminate; try assumption.
  contradiction H. reflexivity.
Qed.

Lemma reflowItems_minimum_reached_witness :
  exists s',
    reflowItems narrow 0 None menu = Normal s'
    /\ minimumItems s' = minimumItems menu
    /\ match overflowBucket s', minimumItems menu with
       | _ :: _, Some mi =>
           attr_minimum_reached (host s') <> None <->
           exists z, mi = JS.Int z
                     /\ (Z.of_nat (List.length (visibleBucket s')) < z)%Z
       | _, _ =>
           attr_minimum_reached (host s') = attr_minimum_reached (host menu)
       end.
Proof.
  apply (reflowItems_minimum_reached narrow 0 None menu).
  reflexivity.
Defined.

(** C3, counterexample.  With the placeholder missing from the shadow root
    [#initialize] throws. *)
Lemma initialize_throws_without_placeholder :
  initialize brokenMenu =
  Throw "Invalid element types in <OverflowList />" brokenMenu
  /\ forall s', initialize brokenMenu <> Normal s'.
Proof.
  split; [reflexivity|]. intros s'. discriminate.
Qed.

(** C3, amended.  When one of the six elements [#initialize] looks up (the
    default slot, the overflow slot, the "more" slot, the overflow part, the
    list and the placeholder) is absent or of the wrong type, it throws
    'Invalid element types in <OverflowList />' and leaves all state
    unchanged. *)
Theorem initialize_throws_on_invalid_structure (s : State)
    (root : ShadowRoot) :
  shadowRoot s = Some root ->
  requiredStructure root = false ->
  initialize s = Throw "Invalid element types in <OverflowList />" s.
Proof.
  intros Hroot Hbad. unfold initialize. rewrite Hroot.
  unfold requiredStructure in Hbad.
  destruct (instanceof_HTMLSlotElement (q_defaultSlot root));
    destruct (instanceof_HTMLSlotElement (q_overflowSlot root));
    destruct (instanceof_HTMLSlotElement (q_moreSlot root));
    destruct (instanceof_HTMLElement (q_overflow root));
    destruct (instanceof_HTMLUListElement (q_list root));
    destruct (instanceof_HTMLLIElement (q_placeholder root));
    try reflexivity; discriminate.
Qed.

Lemma initialize_throws_on_invalid_structure_witness :
  initialize brokenMenu =
  Throw "Invalid element types in <OverflowList />" brokenMenu.
Proof.
  apply (initialize_throws_on_invalid_structure brokenMenu
           (mkShadowRoot (Some HTMLSlotElement) (Some HTMLSlotElement)
              (Some HTMLSlotElement) (Some HTMLOtherElement)
              (Some HTMLUListElement) None)).
  - reflexivity.
  - reflexivity.
Defined.

(** With the structure in place [#initialize] completes and assigns
    [#refs]. *)
Lemma initialize_assigns_refs (s : State) (root : ShadowRoot) :
  shadowRoot s = Some root ->
  requiredStructure root = true ->
  exists s', initialize s = Normal s' /\ refs s' = Some selected_refs
             /\ children s' = children s.
Proof.
  intros Hroot Hok. unfold initialize. rewrite Hroot.
  unfold requiredStructure in Hok.
  repeat (apply andb_prop in Hok; destruct Hok as [Hok ?]).
  repeat match goal with H : _ = true |- _ => rewrite H; clear H end.
  cbn [negb orb]. eexists. split; [reflexivity|].
  destruct (nth_error _ 0); destruct (lastOf _);
    try destruct (negb _); split; reflexivity.
Qed.

(** C4, counterexample.  The narrow menu is detached while a coalesced
    reflow is queued; when the timer fires the reflow runs all the same: it
    moves items 2 and 3 back to the default slot and reconnects the
    observers. *)
Lemma deferred_reflow_runs_after_detach :
  pending menuDetached = 1
  /\ resizeObserver (observers menuDetached) = false
  /\ idsOf (overflowBucket menuDetached) = [2; 3]
  /\ idsOf (overflowBucket (step (TimerFires detachedLayout) menuDetached))
     = []
  /\ children (step (TimerFires detachedLayout) menuDetached)
     <> children menuDetached
  /\ resizeObserver
       (observers (step (TimerFires detachedLayout) menuDetached)) = true.
Proof.
  vm_compute. repeat split. discriminate.
Qed.

(** C4, amended.  Detaching the component while a coalesced reflow is
    queued disconnects the observers and leaves the queue alone; when the
    queued callback fires it runs a whole reflow pass, after which the
    resize and the mutation observer observe the component again. *)
Theorem detach_does_not_cancel_reflow (L : Layout) (s : State) (r : Refs)
    (n : nat) :
  refs s = Some r ->
  pending s = S n ->
  pending (disconnectedCallback s) = S n
  /\ step (TimerFires L) (disconnectedCallback s) =
     set_scheduled false
       (reflowPass r L 0 None (set_pending n (disconnectedCallback s)))
  /\ resizeObserver
       (observers (step (TimerFires L) (disconnectedCallback s))) = true
  /\ mutationObserver
       (observers (step (TimerFires L) (disconnectedCallback s))) = true.
Proof.
  intros Hr Hp.
  assert (Hstep : step (TimerFires L) (disconnectedCallback s) =
                  set_scheduled false
                    (reflowPass r L 0 None
                       (set_pending n (disconnectedCallback s)))).
  { unfold step. replace (pending (disconnectedCallback s)) with (S n)
      by (symmetry; exact Hp).
    unfold scheduledCallback, reflowItems.
    replace (refs (set_pending n (disconnectedCallback s))) with (Some r)
      by (symmetry; exact Hr).
    reflexivity. }
  split; [exact Hp|]. split; [exact Hstep|].
  rewrite Hstep.
  change (observers (set_scheduled false ?x)) with (observers x).
  rewrite reflowPass_observers. split; reflexivity.
Qed.

Lemma detach_does_not_cancel_reflow_witness :
  pending (disconnectedCallback (step ResizeNotification menuNarrow)) = 1
  /\ step (TimerFires detachedLayout)
       (disconnectedCallback (step ResizeNotification menuNarrow)) =
     set_scheduled false
       (reflowPass selected_refs detachedLayout 0 None
          (set_pending 0
             (disconnectedCallback (step ResizeNotification menuNarrow))))
  /\ resizeObserver
       (observers
          (step (TimerFires detachedLayout)
             (disconnectedCallback (step ResizeNotification menuNarrow))))
     = true
  /\ mutationObserver
       (observers
          (step (TimerFires detachedLayout)
             (disconnectedCallback (step ResizeNotification menuNarrow))))
     = true.
Proof.
  apply (detach_does_not_cancel_reflow detachedLayout
           (step ResizeNotification menuNarrow) selected_refs 0).
  - reflexivity.
  - reflexivity.
Defined.

Lemma filter_none {A : Type} (f : A -> bool) (l : list A) :
  (forall a, In a l -> f a = false) -> filter f l = [].
Proof.
  induction l as [|a l IH]; intros H; simpl; [reflexivity|].
  rewrite (H a (or_introl eq_refl)). apply IH.
  intros b Hb. apply H. right. exact Hb.
Qed.

(** What [showAll] leaves behind on an initialised component. *)
Lemma showAll_state (L : Layout) (s : State) (r : Refs) :
  refs s = Some r ->
  showAll L s =
  Normal
    (mkState
       (mkHost (Some "true") (attr_minimum_items (host s))
          (attr_minimum_reached (host s)) (Some 0))
       (shadowRoot s)
       (children (moveItemsToDefaultSlot r (unobserveChanges s)))
       (Some r)
       (mkListEl None (list_flex_wrap (listEl s))
          (list_counter_reset (listEl s)) (list_overflow (listEl s)))
       (moreSlot s)
       (mkPlaceholder (Some 0%Z) (Some "none") (ph_hidden (placeholder s)))
       (mkObservers false false (intersectionObserver (observers s)))
       (reflowListeners s) (scheduled s) (pending s) (dispatched s)).
Proof.
  intros Hr.
  destruct s as [[d mi mr oc] sr cs rf l ms ph ob rl sc pe di].
  cbn [refs] in Hr. subst rf. reflexivity.
Qed.

(** While nothing is queued and the observers are disconnected, a
    notification or a timer changes nothing. *)
Lemma step_notification_idle (e : Event) (s : State) :
  isNotification e = true ->
  resizeObserver (observers s) = false ->
  mutationObserver (observers s) = false ->
  pending s = 0 ->
  step e s = s.
Proof.
  intros He Hr Hm Hp.
  destruct e; try discriminate; unfold step; rewrite ?Hr, ?Hm, ?Hp;
    reflexivity.
Qed.

Lemma run_notifications_idle (es : list Event) (s : State) :
  Forall (fun e => isNotification e = true) es ->
  resizeObserver (observers s) = false ->
  mutationObserver (observers s) = false ->
  pending s = 0 ->
  run es s = s.
Proof.
  intros Hes Hr Hm Hp. induction Hes as [|e es He _ IH]; [reflexivity|].
  unfold run in *. simpl. rewrite (step_notification_idle e s He Hr Hm Hp).
  exact IH.
Qed.

(** C5, counterexample.  [showAll] is called while a coalesced reflow is
    queued.  The queued timer fires on a row that wraps, and a later resize
    notification with its own timer follows: items 2 and 3 end in the
    overflow bucket although [disabled] is still "true". *)
Lemma showAll_does_not_suppress_queued_reflow :
  refs menuResized = Some selected_refs
  /\ overflowBucket (step (ShowAll wide) menuResized) = []
  /\ attr_disabled
       (host
          (run [ShowAll wide; TimerFires narrow; ResizeNotification;
                TimerFires narrow] menuResized)) = Some "true"
  /\ idsOf
       (overflowBucket
          (run [ShowAll wide; TimerFires narrow; ResizeNotification;
                TimerFires narrow] menuResized)) = [2; 3].
Proof.
  vm_compute. repeat split.
Qed.

(** C5, amended.  After [showAll] is called on a component with no
    coalesced reflow queued, every sequence of resize and mutation
    notifications, timers included, leaves every item in the visible
    bucket: the observers are disconnected, so no notification reaches the
    component and no reflow runs. *)
Theorem showAll_suppresses_notifications (L : Layout) (es : list Event)
    (s : State) :
  refs s = Some selected_refs ->
  pending s = 0 ->
  Forall (fun e => isNotification e = true) es ->
  run (ShowAll L :: es) s = state_of (showAll L s)
  /\ overflowBucket (run (ShowAll L :: es) s) = []
  /\ idsOf (visibleBucket (run (ShowAll L :: es) s)) =
     idsOf (elementsOf selected_refs s)
  /\ attr_disabled (host (run (ShowAll L :: es) s)) = Some "true".
Proof.
  intros Hr Hp Hes.
  assert (Hrun : run (ShowAll L :: es) s = state_of (showAll L s)).
  { change (run (ShowAll L :: es) s) with (run es (state_of (showAll L s))).
    apply run_notifications_idle; [exact Hes| | |];
      rewrite (showAll_state L s selected_refs Hr); try reflexivity.
    exact Hp. }
  split; [exact Hrun|].
  rewrite Hrun, (showAll_state L s selected_refs Hr).
  unfold overflowBucket, visibleBucket, elementsOf, state_of. cbn [children host attr_disabled].
  repeat split.
  apply filter_none. intros c Hc. apply (moved_not_overflow s c Hc).
Qed.

Lemma showAll_suppresses_notifications_witness :
  run [ShowAll wide; ResizeNotification; TimerFires narrow;
       MutationNotification] menuNarrow
  = state_of (showAll wide menuNarrow)
  /\ overflowBucket
       (run [ShowAll wide; ResizeNotification; TimerFires narrow;
             MutationNotification] menuNarrow) = []
  /\ idsOf
       (visibleBucket
          (run [ShowAll wide; ResizeNotification; TimerFires narrow;
                MutationNotification] menuNarrow)) =
     idsOf (elementsOf selected_refs menuNarrow)
  /\ attr_disabled
       (host
          (run [ShowAll wide; ResizeNotification; TimerFires narrow;
                MutationNotification] menuNarrow)) = Some "true".
Proof.
  apply (showAll_suppresses_notifications wide
           [ResizeNotification; TimerFires narrow; MutationNotification]
           menuNarrow).
  - reflexivity.
  - reflexivity.
  - repeat constructor.
Defined.

(** ** The wrapping row *)

Section WrappingRow.

Variable W : Z.
Variables w w' : ElemId -> Z.
Hypothesis widened : forall x, (w x <= w' x)%Z.

(** Line indices only grow along the row. *)
Lemma lineOf_ge (row : list ElemId) (e : ElemId) :
  forall used line,
    In e row -> (line <= lineOf W w' used line row e)%Z.
Proof.
  induction row as [|x row IH]; intros used line Hin; [contradiction|].
  simpl. destruct (x =? e) eqn:Hx.
  - destruct (used + w' x <=? W)%Z; lia.
  - assert (Hrest : In e row).
    { destruct Hin as [Heq|Hin]; [|exact Hin].
      apply Nat.eqb_neq in Hx. contradiction. }
    destruct (used + w' x <=? W)%Z.
    + apply IH. exact Hrest.
    + specialize (IH (w' x) (line + 1)%Z Hrest). lia.
Qed.

(** Wider elements never bring an element back to the line the row started
    on. *)
Lemma lineOf_widen (row : list ElemId) (e : ElemId) :
  forall used used' line,
    (used <= used')%Z ->
    In e row ->
    lineOf W w' used' line row e = line ->
    lineOf W w used line row e = line.
Proof.
  induction row as [|x row IH]; intros used used' line Hu Hin H;
    [contradiction|].
  simpl in *. pose proof (widened x) as Hx.
  destruct (used' + w' x <=? W)%Z eqn:Hfit'.
  - apply Z.leb_le in Hfit'.
    assert (Hfit : (used + w x <=? W)%Z = true) by (apply Z.leb_le; lia).
    rewrite Hfit.
    destruct (x =? e) eqn:Hxe; [reflexivity|].
    assert (Hrest : In e row).
    { destruct Hin as [Heq|Hin]; [|exact Hin].
      apply Nat.eqb_neq in Hxe. contradiction. }
    apply (IH (used + w x)%Z (used' + w' x)%Z line);
      [lia|exact Hrest|exact H].
  - destruct (x =? e) eqn:Hxe; [lia|].
    assert (Hrest : In e row).
    { destruct Hin as [Heq|Hin]; [|exact Hin].
      apply Nat.eqb_neq in Hxe. contradiction. }
    pose proof (lineOf_ge row e (w' x) (line + 1)%Z Hrest). lia.
Qed.

End WrappingRow.

Lemma in_visualOrder (p : option ElemId) (els : list Child) (c : Child) :
  In c els -> In (child_id c) (visualOrder p els).
Proof.
  intros Hc. assert (Hid : In (child_id c) (idsOf els)) by (apply in_map, Hc).
  destruct p as [e|]; [|exact Hid]. simpl.
  apply in_or_app. destruct (e =? child_id c) eqn:He.
  - left. apply filter_In. split; assumption.
  - right. apply filter_In. split; [exact Hid|]. rewrite He. reflexivity.
Qed.

Lemma filter_length_le {A : Type} (f g : A -> bool) (l : list A) :
  (forall a, In a l -> f a = true -> g a = true) ->
  List.length (filter f l) <= List.length (filter g l).
Proof.
  induction l as [|a l IH]; intros H; simpl; [lia|].
  assert (IH' : List.length (filter f l) <= List.length (filter g l)).
  { apply IH. intros b Hb. apply H. right. exact Hb. }
  destruct (f a) eqn:Hf.
  - rewrite (H a (or_introl eq_refl) Hf). simpl. lia.
  - destruct (g a); simpl; lia.
Qed.

(** On the wrapping row an element overflows exactly when it has left the
    first line. *)
Lemma overflows_wrapped (W mW lh : Z) (w : ElemId -> Z) (p : option ElemId)
    (els : list Child) (c : Child) :
  (0 < lh)%Z ->
  In c els ->
  (overflows (wrappedLayout W mW lh w p els) c = false <->
   lineOf W w mW 0 (visualOrder p els) (child_id c) = 0%Z).
Proof.
  intros Hlh Hc. unfold overflows, wrappedLayout. simpl.
  pose proof (lineOf_ge W w (visualOrder p els) (child_id c) mW 0%Z
                (in_visualOrder p els c Hc)) as Hge.
  destruct (Z.gtb_spec (lh * lineOf W w mW 0 (visualOrder p els) (child_id c))
              0) as [Hgt|Hle];
    split; intros H; try reflexivity; try discriminate; nia.
Qed.

(** C9.  For every collection of items and every fixed container width,
    widening items pointwise never enlarges the visible bucket a reflow pass
    computes on the wrapping row. *)
Theorem visible_count_antitone_in_widths (W moreWidth lineHeight : Z)
    (w w' : ElemId -> Z) (h : Z) (p : option ElemId) (s : State) :
  refs s = Some selected_refs ->
  (0 < lineHeight)%Z ->
  (forall e, (w e <= w' e)%Z) ->
  exists s1 s2,
    reflowItems
      (wrappedLayout W moreWidth lineHeight w p (elementsOf selected_refs s))
      h p s = Normal s1
    /\ reflowItems
         (wrappedLayout W moreWidth lineHeight w' p
            (elementsOf selected_refs s))
         h p s = Normal s2
    /\ List.length (visibleBucket s2) <= List.length (visibleBucket s1).
Proof.
  intros Hr Hlh Hw. unfold reflowItems. rewrite Hr.
  eexists. eexists. split; [reflexivity|]. split; [reflexivity|].
  rewrite !visibleBucket_length, !measure_visible.
  unfold idsOf. rewrite !length_map.
  apply filter_length_le. intros c Hc H.
  apply negb_true_iff in H. apply negb_true_iff.
  apply (overflows_wrapped W moreWidth lineHeight w' p _ c Hlh Hc) in H.
  apply (overflows_wrapped W moreWidth lineHeight w p _ c Hlh Hc).
  apply (lineOf_widen W w w' Hw _ _ moreWidth moreWidth 0%Z);
    [lia|apply in_visualOrder; exact Hc|exact H].
Qed.

Lemma visible_count_antitone_in_widths_witness :
  exists s1 s2,
    reflowItems
      (wrappedLayout 200 40 30 (fun _ => 50%Z) None
         (elementsOf selected_refs menuOfFive))
      0 None menuOfFive = Normal s1
    /\ reflowItems
         (wrappedLayout 200 40 30 (fun e => if e =? 2 then 70%Z else 50%Z)
            None (elementsOf selected_refs menuOfFive))
         0 None menuOfFive = Normal s2
    /\ List.length (visibleBucket s2) <= List.length (visibleBucket s1).
Proof.
  apply (visible_count_antitone_in_widths 200 40 30 (fun _ => 50%Z)
           (fun e => if e =? 2 then 70%Z else 50%Z) 0 None menuOfFive).
  - reflexivity.
  - lia.
  - intros e. destruct (e =? 2); lia.
Defined.

(** The scenario of five items in a row that fits three of them besides the
    "more" indicator: the first three are visible, the last two overflow,
    the counter is 2 and the placeholder takes the width of item 4; with
    item 2 widened to 70 only two items stay visible. *)
Example five_items_three_fit :
  idsOf (visibleBucket (reflowPass selected_refs (rowOfFive (fun _ => 50%Z))
                          0 None menuOfFive)) = [1; 2; 3]
  /\ idsOf (overflowBucket (reflowPass selected_refs
                              (rowOfFive (fun _ => 50%Z)) 0 None menuOfFive))
     = [4; 5]
  /\ host_overflow_count
       (host (reflowPass selected_refs (rowOfFive (fun _ => 50%Z)) 0 None
                menuOfFive)) = Some 2
  /\ ph_width
       (placeholder (reflowPass selected_refs (rowOfFive (fun _ => 50%Z)) 0
                       None menuOfFive)) = Some 50%Z
  /\ idsOf (visibleBucket
              (reflowPass selected_refs
                 (rowOfFive (fun e => if e =? 2 then 70%Z else 50%Z))
                 0 None menuOfFive)) = [1; 2].
Proof.
  vm_compute. repeat split.
Qed.

(** ** Further properties of the reflow pass *)

Lemma reflowPass_children (L : Layout) (h : Z) (p : option ElemId)
    (s : State) (r : Refs) :
  children (reflowPass r L h p s) =
  match elementsOf r s with
  | [] => map (resetChild r) (children s)
  | _ :: _ =>
      map (fun c =>
             assignChild r (overflowingElements (measure L (elementsOf r s)))
               (unpinChild p (resetChild r c)))
        (children s)
  end.
Proof.
  destruct (elementsOf r s) as [|c0 els0] eqn:E.
  - rewrite reflowPass_empty by exact E. reflexivity.
  - rewrite reflowPass_nonempty by (rewrite E; discriminate).
    rewrite applyMeasure_prepareMeasurement, E.
    cbn [children]. rewrite moved_children.
    destruct p as [e|].
    + rewrite !map_map. apply map_ext. intros c.
      unfold unpinChild. fold (resetChild r c).
      destruct (child_id (resetChild r c) =? e) eqn:Hc; simpl; rewrite ?Hc;
        reflexivity.
    + rewrite map_map. reflexivity.
Qed.

Lemma resetChild_fields (c : Child) :
  child_id (resetChild selected_refs c) = child_id c
  /\ child_order (resetChild selected_refs c) = child_order c
  /\ child_is_template (resetChild selected_refs c) = child_is_template c
  /\ child_slot (resetChild selected_refs c) =
     (if String.eqb (child_slot c) "overflow" then "" else child_slot c).
Proof.
  unfold resetChild. cbn [selected_refs overflowSlot_name defaultSlot_name].
  destruct (String.eqb (child_slot c) "overflow") eqn:E.
  - apply String.eqb_eq in E. rewrite E. repeat split.
  - repeat split.
Qed.

Lemma unpinChild_fields (p : option ElemId) (c : Child) :
  child_id (unpinChild p c) = child_id c
  /\ child_slot (unpinChild p c) = child_slot c
  /\ child_is_template (unpinChild p c) = child_is_template c
  /\ child_order (unpinChild p c) =
     match p with
     | Some e => if child_id c =? e then None else child_order c
     | None => child_order c
     end.
Proof.
  unfold unpinChild. destruct p as [e|]; [|repeat split].
  destruct (child_id c =? e); repeat split.
Qed.

Lemma assignChild_fields (ovf : list ElemId) (c : Child) :
  child_id (assignChild selected_refs ovf c) = child_id c
  /\ child_order (assignChild selected_refs ovf c) = child_order c
  /\ child_is_template (assignChild selected_refs ovf c) = child_is_template c
  /\ child_slot (assignChild selected_refs ovf c) =
     (if String.eqb (child_slot c) ""
      then if includes ovf (child_id c) then "overflow" else ""
      else child_slot c).
Proof.
  unfold assignChild. cbn [selected_refs overflowSlot_name defaultSlot_name].
  destruct (String.eqb (child_slot c) "") eqn:E; [|repeat split].
  apply String.eqb_eq in E.
  destruct (includes ovf (child_id c)); rewrite E; repeat split; auto.
Qed.

Lemma Forall2_map_same {A B : Type} (P : A -> B -> Prop) (f : A -> B)
    (l : list A) :
  (forall a, In a l -> P a (f a)) -> Forall2 P l (map f l).
Proof.
  induction l as [|a l IH]; intros H; simpl; constructor.
  - apply H. left. reflexivity.
  - apply IH. intros b Hb. apply H. right. exact Hb.
Qed.

Lemma isItem_slot (c c' : Child) :
  child_slot c' =
  (if String.eqb (child_slot c) "overflow" then "" else child_slot c)
  \/ child_slot c' = child_slot c
  \/ (String.eqb (child_slot c) "" = true /\ child_slot c' = "overflow") ->
  isItem c' = isItem c.
Proof.
  unfold isItem. intros [H|[H|[H1 H2]]]; rewrite ?H, ?H2.
  - destruct (String.eqb (child_slot c) "overflow") eqn:E;
      [rewrite orb_true_r|rewrite E]; reflexivity.
  - reflexivity.
  - rewrite H1. reflexivity.
Qed.

(** What a pass does to each child, position by position. *)
Lemma reflowPass_childwise (L : Layout) (h : Z) (p : option ElemId)
    (s : State) :
  Forall2
    (fun c c' =>
       child_id c' = child_id c
       /\ child_is_template c' = child_is_template c
       /\ isItem c' = isItem c
       /\ (isItem c = false ->
           child_slot c' = child_slot c)
       /\ (Some (child_id c) <> p -> child_order c' = child_order c))
    (children s) (children (reflowPass selected_refs L h p s)).
Proof.
  rewrite reflowPass_children.
  destruct (elementsOf selected_refs s) as [|c0 els0];
    apply Forall2_map_same; intros c _.
  - destruct (resetChild_fields c) as [Hi [Ho [Ht Hs]]].
    rewrite Hi, Ho, Ht. repeat split.
    + apply isItem_slot. left. exact Hs.
    + intros Hn. rewrite Hs. unfold isItem in Hn.
      apply orb_false_elim in Hn. destruct Hn as [_ Hn]. rewrite Hn.
      reflexivity.
  - set (ovf := overflowingElements _).
    destruct (resetChild_fields c) as [Hi [Ho [Ht Hs]]].
    destruct (unpinChild_fields p (resetChild selected_refs c))
      as [Ui [Us [Ut Uo]]].
    destruct (assignChild_fields ovf (unpinChild p (resetChild selected_refs c)))
      as [Ai [Ao [At As]]].
    rewrite Ai, Ui, Hi, At, Ut, Ht. repeat split.
    + unfold isItem. rewrite As, Us, Hs.
      destruct (String.eqb (child_slot c) "overflow") eqn:E.
      * simpl. rewrite orb_true_r.
        destruct (includes ovf _); reflexivity.
      * destruct (String.eqb (child_slot c) "") eqn:E2.
        -- simpl. destruct (includes ovf _); reflexivity.
        -- rewrite E2, E. reflexivity.
    + intros Hn. unfold isItem in Hn. apply orb_false_elim in Hn.
      destruct Hn as [Hn1 Hn2]. rewrite As, Us, Hs, Hn2, Hn1. reflexivity.
    + intros Hp. rewrite Ao, Uo, Hi, Ho. destruct p as [e|]; [|reflexivity].
      destruct (child_id c =? e) eqn:He; [|reflexivity].
      apply Nat.eqb_eq in He. subst. contradiction Hp. reflexivity.
Qed.

(** The fields a pass never writes. *)
Lemma reflowPass_frame (r : Refs) (L : Layout) (h : Z) (p : option ElemId)
    (s : State) :
  shadowRoot (reflowPass r L h p s) = shadowRoot s
  /\ refs (reflowPass r L h p s) = refs s
  /\ reflowListeners (reflowPass r L h p s) = reflowListeners s
  /\ scheduled (reflowPass r L h p s) = scheduled s
  /\ pending (reflowPass r L h p s) = pending s
  /\ attr_disabled (host (reflowPass r L h p s)) = attr_disabled (host s)
  /\ attr_minimum_items (host (reflowPass r L h p s)) =
     attr_minimum_items (host s)
  /\ ph_display (placeholder (reflowPass r L h p s)) =
     ph_display (placeholder s).
Proof.
  destruct (elementsOf r s) eqn:E.
  - rewrite reflowPass_empty by exact E. repeat split.
  - rewrite reflowPass_nonempty by (rewrite E; discriminate).
    rewrite applyMeasure_prepareMeasurement. cbn [shadowRoot refs
      reflowListeners scheduled pending host attr_disabled attr_minimum_items
      placeholder].
    repeat split. destruct (hasOverflow _); reflexivity.
Qed.

(** The styles and counters a pass writes, by case. *)
Lemma reflowPass_styles (r : Refs) (L : Layout) (h : Z) (p : option ElemId)
    (s : State) :
  let m := measure L (elementsOf r s) in
  match elementsOf r s with
  | [] =>
      listEl (reflowPass r L h p s) = listEl s
      /\ moreSlot (reflowPass r L h p s) = moreSlot s
      /\ placeholder (reflowPass r L h p s) = placeholder s
      /\ host_overflow_count (host (reflowPass r L h p s)) =
         host_overflow_count (host s)
  | _ :: _ =>
      listEl (reflowPass r L h p s) =
      mkListEl (if (h >? 0)%Z then Some h else list_height (listEl s))
        (Some "wrap") (Some (List.length (overflowingElements m)))
        (Some "unset")
      /\ moreSlot (reflowPass r L h p s) =
         mkMoreSlot (if hasOverflow m then None else Some "-1")
           (negb (hasOverflow m))
      /\ placeholder (reflowPass r L h p s) =
         (if hasOverflow m
          then mkPlaceholder (Some (placeholderWidth m))
                 (ph_display (placeholder s)) false
          else mkPlaceholder (ph_width (placeholder s))
                 (ph_display (placeholder s)) true)
      /\ host_overflow_count (host (reflowPass r L h p s)) =
         Some (List.length (overflowingElements m))
  end.
Proof.
  intros m. subst m. destruct (elementsOf r s) eqn:E.
  - rewrite reflowPass_empty by exact E. repeat split.
  - rewrite reflowPass_nonempty by (rewrite E; discriminate).
    rewrite applyMeasure_prepareMeasurement, E. repeat split.
Qed.

(** Two states with the same fields are the same state. *)
Lemma State_ext (a b : State) :
  host a = host b -> shadowRoot a = shadowRoot b ->
  children a = children b -> refs a = refs b -> listEl a = listEl b ->
  moreSlot a = moreSlot b -> placeholder a = placeholder b ->
  observers a = observers b -> reflowListeners a = reflowListeners b ->
  scheduled a = scheduled b -> pending a = pending b ->
  dispatched a = dispatched b -> a = b.
Proof.
  destruct a, b. cbn. intros. subst. reflexivity.
Qed.

Lemma Host_ext (a b : Host) :
  attr_disabled a = attr_disabled b ->
  attr_minimum_items a = attr_minimum_items b ->
  attr_minimum_reached a = attr_minimum_reached b ->
  host_overflow_count a = host_overflow_count b -> a = b.
Proof.
  destruct a, b. cbn. intros. subst. reflexivity.
Qed.

(** The measurement reads the elements through their identity only. *)
Lemma measure_ids (L : Layout) (els els' : list Child) :
  idsOf els = idsOf els' -> measure L els = measure L els'.
Proof.
  unfold measure. generalize (mkMeasure [] [] 0%Z false).
  revert els'. induction els as [|c els IH]; intros [|c' els'] m H;
    try discriminate; [reflexivity|].
  simpl in H. injection H as Hc H. simpl.
  replace (measureElement L m c') with (measureElement L m c)
    by (unfold measureElement; rewrite Hc; reflexivity).
  apply IH. exact H.
Qed.

(** The elements of a pass are the items among the children. *)
Lemma elementsOf_items (s : State) :
  idsOf (elementsOf selected_refs s) = idsOf (filter isItem (children s)).
Proof.
  unfold elementsOf, assignedElements. rewrite moved_children.
  apply ids_filter_map. intros c _. fold (resetChild selected_refs c).
  destruct (resetChild_fields c) as [Hi [_ [_ Hs]]].
  split; [exact Hi|]. rewrite Hs. unfold isItem.
  cbn [selected_refs defaultSlot_name].
  destruct (String.eqb (child_slot c) "overflow");
    [rewrite orb_true_r|rewrite orb_false_r]; reflexivity.
Qed.

Lemma ids_filter_Forall2 (P : Child -> bool) (l l' : list Child) :
  Forall2 (fun c c' => child_id c' = child_id c /\ P c' = P c) l l' ->
  idsOf (filter P l') = idsOf (filter P l).
Proof.
  induction 1 as [|c c' l l' [Hid HP] _ IH]; [reflexivity|].
  simpl. rewrite HP. destruct (P c); simpl; rewrite IH, ?Hid; reflexivity.
Qed.

(** A pass does not change which elements the next pass measures. *)
Lemma elementsOf_reflowPass (L : Layout) (h : Z) (p : option ElemId)
    (s : State) :
  idsOf (elementsOf selected_refs (reflowPass selected_refs L h p s)) =
  idsOf (elementsOf selected_refs s).
Proof.
  rewrite !elementsOf_items. apply ids_filter_Forall2.
  eapply Forall2_impl; [|apply reflowPass_childwise].
  intros c c' [Hid [_ [Hit _]]]. split; assumption.
Qed.

Lemma resetChild_idem (c : Child) :
  resetChild selected_refs (resetChild selected_refs c) =
  resetChild selected_refs c.
Proof.
  unfold resetChild. cbn [selected_refs overflowSlot_name defaultSlot_name].
  destruct c as [ci sl co ct]. cbn [child_slot].
  destruct (String.eqb_spec sl "overflow") as [->|Hne]; [reflexivity|].
  apply String.eqb_neq in Hne. cbn [child_slot]. rewrite Hne. reflexivity.
Qed.

Lemma Child_ext (a b : Child) :
  child_id a = child_id b -> child_slot a = child_slot b ->
  child_order a = child_order b ->
  child_is_template a = child_is_template b -> a = b.
Proof.
  destruct a, b. cbn. intros. subst. reflexivity.
Qed.

(** The three writes of a pass to one child, taken together. *)
Lemma placeChild_fields (ovf : list ElemId) (p : option ElemId) (c : Child) :
  let c' :=
    assignChild selected_refs ovf (unpinChild p (resetChild selected_refs c))
  in
  child_id c' = child_id c
  /\ child_is_template c' = child_is_template c
  /\ child_order c' =
     match p with
     | Some e => if child_id c =? e then None else child_order c
     | None => child_order c
     end
  /\ child_slot c' =
     (if isItem c
      then if includes ovf (child_id c) then "overflow" else ""
      else child_slot c).
Proof.
  intros c'. subst c'.
  destruct (resetChild_fields c) as [Hi [Ho [Ht Hs]]].
  destruct (unpinChild_fields p (resetChild selected_refs c))
    as [Ui [Us [Ut Uo]]].
  destruct (assignChild_fields ovf
              (unpinChild p (resetChild selected_refs c)))
    as [Ai [Ao [At As]]].
  rewrite Ai, At, Ao, As, Ui, Ut, Uo, Us, Hi, Ht, Ho, Hs.
  repeat split. unfold isItem.
  destruct (String.eqb (child_slot c) "overflow") eqn:E.
  - rewrite orb_true_r. reflexivity.
  - rewrite orb_false_r. reflexivity.
Qed.

Lemma placeChild_idem (ovf : list ElemId) (p : option ElemId) (c : Child) :
  assignChild selected_refs ovf
    (unpinChild p
       (resetChild selected_refs
          (assignChild selected_refs ovf
             (unpinChild p (resetChild selected_refs c))))) =
  assignChild selected_refs ovf (unpinChild p (resetChild selected_refs c)).
Proof.
  set (c1 := assignChild selected_refs ovf
               (unpinChild p (resetChild selected_refs c))).
  destruct (placeChild_fields ovf p c) as [Hi [Ht [Ho Hs]]].
  destruct (placeChild_fields ovf p c1) as [Hi' [Ht' [Ho' Hs']]].
  fold c1 in Hi, Ht, Ho, Hs.
  apply Child_ext.
  - exact Hi'.
  - rewrite Hs', Hi. unfold isItem. rewrite Hs. unfold isItem.
    destruct (String.eqb (child_slot c) "" || String.eqb (child_slot c) "overflow")
      eqn:E.
    + destruct (includes ovf (child_id c)); reflexivity.
    + rewrite E. reflexivity.
  - rewrite Ho', Hi, Ho. destruct p as [e|]; [|reflexivity].
    destruct (child_id c =? e); reflexivity.
  - exact Ht'.
Qed.

Lemma ids_filter_by_id (f : ElemId -> bool) (l : list Child) :
  idsOf (filter (fun c => f (child_id c)) l) = filter f (idsOf l).
Proof.
  induction l as [|c l IH]; simpl; [reflexivity|].
  destruct (f (child_id c)); simpl; rewrite IH; reflexivity.
Qed.

Lemma filter_split_length {A : Type} (f : A -> bool) (l : list A) :
  List.length (filter (fun a => negb (f a)) l) + List.length (filter f l) =
  List.length l.
Proof.
  induction l as [|a l IH]; simpl; [reflexivity|].
  destruct (f a); simpl; lia.
Qed.

Lemma ids_Forall2 (P : Child -> Child -> Prop) (l l' : list Child) :
  (forall c c', P c c' -> child_id c' = child_id c) ->
  Forall2 P l l' -> idsOf l' = idsOf l.
Proof.
  intros HP. induction 1 as [|c c' l l' H _ IH]; [reflexivity|].
  simpl. rewrite (HP c c' H), IH. reflexivity.
Qed.

(** X1.  A reflow pass never adds, removes or reorders the children of the
    host: position by position the same element is found, with the same
    template flag; an item stays an item, a child of any other slot keeps
    its slot, and only the pinned element has its [order] style touched. *)
Theorem reflowItems_keeps_children (L : Layout) (h : Z) (p : option ElemId)
    (s : State) :
  refs s = Some selected_refs ->
  exists s',
    reflowItems L h p s = Normal s'
    /\ idsOf (children s') = idsOf (children s)
    /\ Forall2
         (fun c c' =>
            child_id c' = child_id c
            /\ child_is_template c' = child_is_template c
            /\ isItem c' = isItem c
            /\ (isItem c = false -> child_slot c' = child_slot c)
            /\ (Some (child_id c) <> p -> child_order c' = child_order c))
         (children s) (children s').
Proof.
  intros Hr. unfold reflowItems. rewrite Hr.
  eexists. split; [reflexivity|].
  pose proof (reflowPass_childwise L h p s) as H.
  split; [|exact H].
  eapply ids_Forall2; [|exact H]. intros c c' [Hid _]. exact Hid.
Qed.

Lemma reflowItems_keeps_children_witness :
  exists s',
    reflowItems narrow 0 (Some 3) menuNarrow = Normal s'
    /\ idsOf (children s') = idsOf (children menuNarrow)
    /\ Forall2
         (fun c c' =>
            child_id c' = child_id c
            /\ child_is_template c' = child_is_template c
            /\ isItem c' = isItem c
            /\ (isItem c = false -> child_slot c' = child_slot c)
            /\ (Some (child_id c) <> Some 3 ->
                child_order c' = child_order c))
         (children menuNarrow) (children s').
Proof.
  apply (reflowItems_keeps_children narrow 0 (Some 3) menuNarrow).
  reflexivity.
Defined.

(** The buckets after a pass, as filters on the identities of the items. *)
Lemma reflowPass_buckets_ids (L : Layout) (h : Z) (p : option ElemId)
    (s : State) :
  idsOf (visibleBucket (reflowPass selected_refs L h p s)) =
  filter (fun e => negb (top (elementRect L e) >? top (moreSlotRect L))%Z)
    (idsOf (filter isItem (children s)))
  /\ idsOf (overflowBucket (reflowPass selected_refs L h p s)) =
     filter (fun e => (top (elementRect L e) >? top (moreSlotRect L))%Z)
       (idsOf (filter isItem (children s))).
Proof.
  destruct (reflowPass_buckets L h p s) as [Hv Ho].
  rewrite Hv, Ho, <- elementsOf_items. split.
  - apply (ids_filter_by_id
             (fun e => negb (top (elementRect L e)
                             >? top (moreSlotRect L))%Z)).
  - apply (ids_filter_by_id
             (fun e => (top (elementRect L e) >? top (moreSlotRect L))%Z)).
Qed.

(** X2.  A reflow pass splits the items (the children of the default and of
    the overflow slot) between the two buckets without loss or duplicate:
    the visible bucket is, in document order, the items whose top is not
    greater than the top of the "more" slot, the overflow bucket the others,
    and the two sizes add up to the number of items. *)
Theorem reflowItems_partitions_items (L : Layout) (h : Z)
    (p : option ElemId) (s : State) :
  refs s = Some selected_refs ->
  exists s',
    reflowItems L h p s = Normal s'
    /\ idsOf (visibleBucket s') =
       filter
         (fun e => negb (top (elementRect L e) >? top (moreSlotRect L))%Z)
         (idsOf (filter isItem (children s)))
    /\ idsOf (overflowBucket s') =
       filter (fun e => (top (elementRect L e) >? top (moreSlotRect L))%Z)
         (idsOf (filter isItem (children s)))
    /\ List.length (visibleBucket s') + List.length (overflowBucket s') =
       List.length (filter isItem (children s)).
Proof.
  intros Hr. unfold reflowItems. rewrite Hr.
  eexists. split; [reflexivity|].
  destruct (reflowPass_buckets_ids L h p s) as [Hv' Ho'].
  split; [exact Hv'|]. split; [exact Ho'|].
  rewrite <- (length_map child_id (visibleBucket _)).
  rewrite <- (length_map child_id (overflowBucket _)).
  fold (idsOf (visibleBucket (reflowPass selected_refs L h p s))).
  fold (idsOf (overflowBucket (reflowPass selected_refs L h p s))).
  rewrite Hv', Ho', filter_split_length.
  unfold idsOf. apply length_map.
Qed.

Lemma reflowItems_partitions_items_witness :
  exists s',
    reflowItems narrow 0 None menuNarrow = Normal s'
    /\ idsOf (visibleBucket s') =
       filter
         (fun e => negb (top (elementRect narrow e)
                         >? top (moreSlotRect narrow))%Z)
         (idsOf (filter isItem (children menuNarrow)))
    /\ idsOf (overflowBucket s') =
       filter
         (fun e => (top (elementRect narrow e) >? top (moreSlotRect narrow))%Z)
         (idsOf (filter isItem (children menuNarrow)))
    /\ List.length (visibleBucket s') + List.length (overflowBucket s') =
       List.length (filter isItem (children menuNarrow)).
Proof.
  apply (reflowItems_partitions_items narrow 0 None menuNarrow).
  reflexivity.
Defined.

(** A second pass on the same layout rebuilds the state of the first, the
    list of dispatched events apart. *)
Lemma reflowPass_twice (L : Layout) (h : Z) (p : option ElemId) (s : State) :
  set_dispatched (dispatched (reflowPass selected_refs L h p s))
    (reflowPass selected_refs L h p (reflowPass selected_refs L h p s)) =
  reflowPass selected_refs L h p s.
Proof.
  set (s1 := reflowPass selected_refs L h p s).
  pose proof (elementsOf_reflowPass L h p s) as Hels. fold s1 in Hels.
  pose proof (measure_ids L _ _ Hels) as Hm.
  destruct (reflowPass_frame selected_refs L h p s)
    as [F1 [F2 [F3 [F4 [F5 [F6 [F7 F8]]]]]]].
  destruct (reflowPass_frame selected_refs L h p s1)
    as [G1 [G2 [G3 [G4 [G5 [G6 [G7 G8]]]]]]].
  fold s1 in F1, F2, F3, F4, F5, F6, F7, F8.
  destruct (reflowPass_minimum selected_refs L h p s) as [M1 [_ M3]].
  destruct (reflowPass_minimum selected_refs L h p s1) as [N1 [_ _]].
  fold s1 in M1, M3. rewrite Hm, M3 in N1.
  pose proof (reflowPass_styles selected_refs L h p s) as St.
  pose proof (reflowPass_styles selected_refs L h p s1) as St1.
  pose proof (reflowPass_children L h p s selected_refs) as Ch.
  pose proof (reflowPass_children L h p s1 selected_refs) as Ch1.
  fold s1 in St, Ch. cbv zeta in St, St1. rewrite Hm in St1, Ch1.
  assert (Hempty : elementsOf selected_refs s1 = []
                   <-> elementsOf selected_refs s = []).
  { split; intros H; apply (f_equal (@List.length _)) in Hels;
      unfold idsOf in Hels; rewrite !length_map, H in Hels;
      [destruct (elementsOf selected_refs s)
      |destruct (elementsOf selected_refs s1)];
      try reflexivity; discriminate. }
  apply State_ext; cbn [set_dispatched host shadowRoot children refs listEl
                        moreSlot placeholder observers reflowListeners
                        scheduled pending dispatched];
    try congruence.
  - (* host *)
    apply Host_ext; try congruence.
    + rewrite N1, M1.
      destruct (hasOverflow (measure L (elementsOf selected_refs s)));
        [|reflexivity].
      destruct (minimumItems s); reflexivity.
    + destruct (elementsOf selected_refs s) as [|a l] eqn:E.
      * rewrite (proj2 Hempty eq_refl) in St1.
        destruct St1 as [_ [_ [_ St1]]]. exact St1.
      * destruct (elementsOf selected_refs s1) as [|a1 l1] eqn:E1;
          [discriminate (proj1 Hempty eq_refl)|].
        destruct St as [_ [_ [_ St]]]. destruct St1 as [_ [_ [_ St1]]].
        rewrite St, St1. reflexivity.
  - (* children *)
    rewrite Ch1.
    destruct (elementsOf selected_refs s) as [|a l] eqn:E.
    + rewrite (proj2 Hempty eq_refl), Ch, map_map.
      apply map_ext. intros c. apply resetChild_idem.
    + destruct (elementsOf selected_refs s1) as [|a1 l1] eqn:E1;
        [discriminate (proj1 Hempty eq_refl)|].
      rewrite Ch, map_map. apply map_ext. intros c. apply placeChild_idem.
  - (* list *)
    destruct (elementsOf selected_refs s) as [|a l] eqn:E.
    + rewrite (proj2 Hempty eq_refl) in St1. destruct St1 as [St1 _].
      exact St1.
    + destruct (elementsOf selected_refs s1) as [|a1 l1] eqn:E1;
        [discriminate (proj1 Hempty eq_refl)|].
      destruct St as [St _]. destruct St1 as [St1 _].
      rewrite St1, St. cbn [list_height].
      destruct (h >? 0)%Z; reflexivity.
  - (* more slot *)
    destruct (elementsOf selected_refs s) as [|a l] eqn:E.
    + rewrite (proj2 Hempty eq_refl) in St1. destruct St1 as [_ [St1 _]].
      exact St1.
    + destruct (elementsOf selected_refs s1) as [|a1 l1] eqn:E1;
        [discriminate (proj1 Hempty eq_refl)|].
      destruct St as [_ [St _]]. destruct St1 as [_ [St1 _]].
      rewrite St1, St. reflexivity.
  - (* placeholder *)
    destruct (elementsOf selected_refs s) as [|a l] eqn:E.
    + rewrite (proj2 Hempty eq_refl) in St1. destruct St1 as [_ [_ [St1 _]]].
      exact St1.
    + destruct (elementsOf selected_refs s1) as [|a1 l1] eqn:E1;
        [discriminate (proj1 Hempty eq_refl)|].
      destruct St as [_ [_ [St _]]]. destruct St1 as [_ [_ [St1 _]]].
      rewrite St1, St.
      destruct (hasOverflow (measure L (a :: l))); reflexivity.
  - (* observers *)
    rewrite !reflowPass_observers. subst s1.
    rewrite reflowPass_observers. reflexivity.
Qed.

(** X3.  A second reflow pass with the same layout, locked height and pinned
    element leaves the component exactly as the first pass left it (slots,
    styles, attributes, counters, observers); the only difference is what
    has been dispatched. *)
Theorem reflowItems_idempotent (L : Layout) (h : Z) (p : option ElemId)
    (s : State) :
  refs s = Some selected_refs ->
  exists s1 s2,
    reflowItems L h p s = Normal s1
    /\ reflowItems L h p s1 = Normal s2
    /\ set_dispatched (dispatched s1) s2 = s1.
Proof.
  intros Hr.
  exists (reflowPass selected_refs L h p s).
  exists (reflowPass selected_refs L h p (reflowPass selected_refs L h p s)).
  split; [unfold reflowItems; rewrite Hr; reflexivity|].
  split.
  - unfold reflowItems.
    rewrite (proj1 (proj2 (reflowPass_frame selected_refs L h p s))), Hr.
    reflexivity.
  - apply reflowPass_twice.
Qed.

Lemma reflowItems_idempotent_witness :
  exists s1 s2,
    reflowItems narrow 0 (Some 2) menu = Normal s1
    /\ reflowItems narrow 0 (Some 2) s1 = Normal s2
    /\ set_dispatched (dispatched s1) s2 = s1.
Proof.
  apply (reflowItems_idempotent narrow 0 (Some 2) menu).
  reflexivity.
Defined.

(** ** Coalescing *)

Lemma step_change_scheduled (e : Event) (s : State) :
  isChange e = true -> scheduled s = true -> step e s = s.
Proof.
  intros He Hs. destruct e; try discriminate; unfold step, handleChange;
    rewrite Hs; destruct (_ (observers s)); reflexivity.
Qed.

Lemma run_changes_scheduled (es : list Event) (s : State) :
  Forall (fun e => isChange e = true) es -> scheduled s = true ->
  run es s = s.
Proof.
  intros Hes Hs. induction Hes as [|e es He _ IH]; [reflexivity|].
  unfold run in *. simpl. rewrite (step_change_scheduled e s He Hs).
  exact IH.
Qed.

Lemma run_app (es es' : list Event) (s : State) :
  run (es ++ es') s = run es' (run es s).
Proof. unfold run. apply fold_left_app. Qed.

Lemma reflowPass_dispatched_length (r : Refs) (L : Layout) (h : Z)
    (p : option ElemId) (s : State) :
  List.length (dispatched (reflowPass r L h p s)) <=
  S (List.length (dispatched s)).
Proof.
  destruct (reflowPass_minimum r L h p s) as [_ [Hd _]]. rewrite Hd.
  rewrite length_app.
  destruct (hasOverflow _); [destruct (minimumItems s)|]; simpl; lia.
Qed.

(** X4.  Coalescing: while the observers are connected and no reflow is
    scheduled, a burst of resize and mutation notifications of any length
    has the effect of a single one: it queues exactly one timer; when that
    timer fires exactly one reflow pass runs (so at most one notification is
    dispatched), the flag is cleared and the observers are connected again,
    ready for the next burst. *)
Theorem notifications_coalesce (es : list Event) (L : Layout) (s : State)
    (r : Refs) :
  refs s = Some r ->
  resizeObserver (observers s) = true ->
  mutationObserver (observers s) = true ->
  scheduled s = false ->
  es <> [] ->
  Forall (fun e => isChange e = true) es ->
  run es s = handleChange s
  /\ pending (run es s) = S (pending s)
  /\ run (es ++ [TimerFires L]) s =
     set_scheduled false
       (reflowPass r L 0 None (set_pending (pending s) (handleChange s)))
  /\ scheduled (run (es ++ [TimerFires L]) s) = false
  /\ pending (run (es ++ [TimerFires L]) s) = pending s
  /\ resizeObserver (observers (run (es ++ [TimerFires L]) s)) = true
  /\ mutationObserver (observers (run (es ++ [TimerFires L]) s)) = true
  /\ List.length (dispatched (run (es ++ [TimerFires L]) s)) <=
     S (List.length (dispatched s)).
Proof.
  intros Hr Hro Hmo Hsc Hne Hes.
  assert (Hburst : run es s = handleChange s).
  { destruct es as [|e es]; [contradiction Hne; reflexivity|].
    inversion Hes as [|e' es' He Hes']; subst.
    change (run (e :: es) s) with (run es (step e s)).
    assert (Hfirst : step e s = handleChange s).
    { destruct e; try discriminate; unfold step; rewrite ?Hro, ?Hmo;
        reflexivity. }
    rewrite Hfirst. apply run_changes_scheduled; [exact Hes'|].
    unfold handleChange. rewrite Hsc. reflexivity. }
  assert (Hpend : pending (handleChange s) = S (pending s)).
  { unfold handleChange. rewrite Hsc. reflexivity. }
  assert (Hrefs : refs (set_pending (pending s) (handleChange s)) = Some r).
  { unfold handleChange. rewrite Hsc. exact Hr. }
  assert (Htimer : run (es ++ [TimerFires L]) s =
                   set_scheduled false
                     (reflowPass r L 0 None
                        (set_pending (pending s) (handleChange s)))).
  { rewrite run_app, Hburst.
    change (run [TimerFires L] (handleChange s))
      with (step (TimerFires L) (handleChange s)).
    unfold step. rewrite Hpend. unfold scheduledCallback, reflowItems.
    rewrite Hrefs. reflexivity. }
  split; [exact Hburst|]. split; [rewrite Hburst; exact Hpend|].
  split; [exact Htimer|]. rewrite Htimer.
  destruct (reflowPass_frame r L 0 None
              (set_pending (pending s) (handleChange s)))
    as [_ [_ [_ [_ [Fp _]]]]].
  change (observers (set_scheduled false ?x)) with (observers x).
  change (pending (set_scheduled false ?x)) with (pending x).
  change (dispatched (set_scheduled false ?x)) with (dispatched x).
  rewrite reflowPass_observers, Fp.
  repeat split.
  eapply Nat.le_trans; [apply reflowPass_dispatched_length|].
  unfold handleChange. rewrite Hsc. apply Nat.le_refl.
Qed.

Lemma notifications_coalesce_witness :
  run [ResizeNotification; MutationNotification; ResizeNotification]
    menuNarrow = handleChange menuNarrow
  /\ pending
       (run [ResizeNotification; MutationNotification; ResizeNotification]
          menuNarrow) = S (pending menuNarrow)
  /\ run ([ResizeNotification; MutationNotification; ResizeNotification]
          ++ [TimerFires wide]) menuNarrow =
     set_scheduled false
       (reflowPass selected_refs wide 0 None
          (set_pending (pending menuNarrow) (handleChange menuNarrow)))
  /\ scheduled
       (run ([ResizeNotification; MutationNotification; ResizeNotification]
             ++ [TimerFires wide]) menuNarrow) = false
  /\ pending
       (run ([ResizeNotification; MutationNotification; ResizeNotification]
             ++ [TimerFires wide]) menuNarrow) = pending menuNarrow
  /\ resizeObserver
       (observers
          (run ([ResizeNotification; MutationNotification;
                 ResizeNotification] ++ [TimerFires wide]) menuNarrow))
     = true
  /\ mutationObserver
       (observers
          (run ([ResizeNotification; MutationNotification;
                 ResizeNotification] ++ [TimerFires wide]) menuNarrow))
     = true
  /\ List.length
       (dispatched
          (run ([ResizeNotification; MutationNotification;
                 ResizeNotification] ++ [TimerFires wide]) menuNarrow))
     <= S (List.length (dispatched menuNarrow)).
Proof.
  apply (notifications_coalesce
           [ResizeNotification; MutationNotification; ResizeNotification]
           wide menuNarrow selected_refs).
  - reflexivity.
  - reflexivity.
  - reflexivity.
  - reflexivity.
  - discriminate.
  - repeat constructor.
Defined.

(** ** The [disabled] attribute *)

Lemma reset_state (s : State) (r : Refs) :
  refs s = Some r ->
  reset s =
  Normal
    (mkState
       (mkHost (attr_disabled (host s)) (attr_minimum_items (host s))
          (attr_minimum_reached (host s)) (Some 0))
       (shadowRoot s)
       (children (moveItemsToDefaultSlot r (unobserveChanges s)))
       (Some r)
       (mkListEl None (list_flex_wrap (listEl s))
          (list_counter_reset (listEl s)) (list_overflow (listEl s)))
       (moreSlot s) (placeholder s)
       (mkObservers false false (intersectionObserver (observers s)))
       (reflowListeners s) (scheduled s) (pending s) (dispatched s)).
Proof.
  intros Hr.
  destruct s as [[d mi mr oc] sr cs rf l ms ph ob rl sc pe di].
  cbn [refs] in Hr. subst rf. reflexivity.
Qed.

(** X5.  On a component that [#initialize] has set up ([#refs] assigned),
    setting [disabled] to "true" puts every item back in the visible bucket
    in document order, zeroes the host's overflow count, removes the locked
    height and disconnects the resize and mutation observers; it dispatches
    nothing and leaves the "more" slot, the placeholder, the list's own
    counter and the [minimum-reached] attribute as they were.  Before
    [#initialize] has assigned [#refs], the reaction throws at the
    destructuring in [#reset] and does none of this: the attribute is
    written and nothing else changes. *)
Theorem disabling_resets (L : Layout) (s : State) :
  (refs s = Some selected_refs ->
   exists s',
     setAttribute_disabled "true" L s = Normal s'
     /\ overflowBucket s' = []
     /\ idsOf (visibleBucket s') = idsOf (filter isItem (children s))
     /\ host_overflow_count (host s') = Some 0
     /\ list_height (listEl s') = None
     /\ resizeObserver (observers s') = false
     /\ mutationObserver (observers s') = false
     /\ dispatched s' = dispatched s
     /\ moreSlot s' = moreSlot s
     /\ placeholder s' = placeholder s
     /\ list_counter_reset (listEl s') = list_counter_reset (listEl s)
     /\ attr_minimum_reached (host s') = attr_minimum_reached (host s))
  /\ (refs s = None ->
      setAttribute_disabled "true" L s =
      Throw TypeError
        (set_host
           (mkHost (Some "true") (attr_minimum_items (host s))
              (attr_minimum_reached (host s))
              (host_overflow_count (host s))) s)).
Proof.
  split; intros Hr; unfold setAttribute_disabled, attributeChangedCallback;
    cbn [String.eqb Ascii.eqb Bool.eqb andb].
  - rewrite (reset_state _ selected_refs) by exact Hr.
    eexists. split; [reflexivity|].
    unfold overflowBucket, visibleBucket.
    cbn [children host listEl observers dispatched moreSlot placeholder
         host_overflow_count list_height resizeObserver mutationObserver
         list_counter_reset attr_minimum_reached].
    split.
    { apply filter_none. intros c Hc. apply (moved_not_overflow s c Hc). }
    split; [exact (elementsOf_items s)|].
    repeat split.
  - unfold reset. cbn [refs set_host]. rewrite Hr. reflexivity.
Qed.

Lemma disabling_resets_witness :
  (exists s',
     setAttribute_disabled "true" wide menuNarrow = Normal s'
     /\ overflowBucket s' = []
     /\ idsOf (visibleBucket s') = idsOf (filter isItem (children menuNarrow))
     /\ host_overflow_count (host s') = Some 0
     /\ list_height (listEl s') = None
     /\ resizeObserver (observers s') = false
     /\ mutationObserver (observers s') = false
     /\ dispatched s' = dispatched menuNarrow
     /\ moreSlot s' = moreSlot menuNarrow
     /\ placeholder s' = placeholder menuNarrow
     /\ list_counter_reset (listEl s') =
        list_counter_reset (listEl menuNarrow)
     /\ attr_minimum_reached (host s') =
        attr_minimum_reached (host menuNarrow))
  /\ setAttribute_disabled "true" wide parsedMenu =
     Throw TypeError
       (set_host
          (mkHost (Some "true") (attr_minimum_items (host parsedMenu))
             (attr_minimum_reached (host parsedMenu))
             (host_overflow_count (host parsedMenu))) parsedMenu).
Proof.
  split.
  - apply (proj1 (disabling_resets wide menuNarrow)). reflexivity.
  - apply (proj2 (disabling_resets wide parsedMenu)). reflexivity.
Defined.

(** X6.  Only the exact value "true" disables.  On a component that
    [#initialize] has set up ([#refs] assigned), setting [disabled] to any
    other string, the empty string and "false" alike, runs a reflow pass at
    once, which assigns the buckets from the layout and connects the
    observers.  Before [#initialize] has assigned [#refs], the reaction
    throws at the destructuring in [#reflowItems] and no pass runs: the
    attribute is written and nothing else changes. *)
Theorem only_true_disables (v : string) (L : Layout) (s : State) :
  v <> "true" ->
  (refs s = Some selected_refs ->
   exists s',
     setAttribute_disabled v L s = Normal s'
     /\ attr_disabled (host s') = Some v
     /\ resizeObserver (observers s') = true
     /\ mutationObserver (observers s') = true
     /\ idsOf (overflowBucket s') =
        filter (fun e => (top (elementRect L e) >? top (moreSlotRect L))%Z)
          (idsOf (filter isItem (children s))))
  /\ (refs s = None ->
      setAttribute_disabled v L s =
      Throw TypeError
        (set_host
           (mkHost (Some v) (attr_minimum_items (host s))
              (attr_minimum_reached (host s))
              (host_overflow_count (host s))) s)).
Proof.
  intros Hv. apply String.eqb_neq in Hv.
  split; intros Hr; unfold setAttribute_disabled, attributeChangedCallback;
    cbn [String.eqb Ascii.eqb Bool.eqb andb]; rewrite Hv;
    set (s0 := set_host _ s).
  - assert (Hr0 : refs s0 = Some selected_refs) by exact Hr.
    exists (reflowPass selected_refs L 0 None s0).
    split; [unfold reflowItems; rewrite Hr0; reflexivity|].
    destruct (reflowPass_frame selected_refs L 0 None s0)
      as [_ [_ [_ [_ [_ [Fd _]]]]]].
    rewrite Fd, reflowPass_observers. repeat split.
    exact (proj2 (reflowPass_buckets_ids L 0 None s0)).
  - assert (Hr0 : refs s0 = None) by exact Hr.
    unfold reflowItems. rewrite Hr0. reflexivity.
Qed.

Lemma only_true_disables_witness :
  (exists s',
     setAttribute_disabled EmptyString narrow (state_of (showAll wide menu))
     = Normal s'
     /\ attr_disabled (host s') = Some EmptyString
     /\ resizeObserver (observers s') = true
     /\ mutationObserver (observers s') = true
     /\ idsOf (overflowBucket s') =
        filter
          (fun e =>
             (top (elementRect narrow e) >? top (moreSlotRect narrow))%Z)
          (idsOf (filter isItem (children (state_of (showAll wide menu))))))
  /\ setAttribute_disabled "false" narrow parsedMenu =
     Throw TypeError
       (set_host
          (mkHost (Some "false") (attr_minimum_items (host parsedMenu))
             (attr_minimum_reached (host parsedMenu))
             (host_overflow_count (host parsedMenu))) parsedMenu).
Proof.
  split.
  - assert (Hv : EmptyString <> "true") by discriminate.
    apply (proj1 (only_true_disables EmptyString narrow
                    (state_of (showAll wide menu)) Hv)).
    reflexivity.
  - assert (Hv : "false" <> "true") by discriminate.
    apply (proj2 (only_true_disables "false" narrow parsedMenu Hv)).
    reflexivity.
Defined.

(** ** What [showAll] does for good *)

Lemma reflowItems_ph_display (L : Layout) (h : Z) (p : option ElemId)
    (s : State) :
  ph_display (placeholder (state_of (reflowItems L h p s))) =
  ph_display (placeholder s).
Proof.
  unfold reflowItems. destruct (refs s) as [r|]; [|reflexivity].
  cbn [state_of].
  exact (proj2 (proj2 (proj2 (proj2 (proj2 (proj2 (proj2
           (reflowPass_frame r L h p s)))))))).
Qed.

Lemma reset_ph_display (s : State) :
  ph_display (placeholder (state_of (reset s))) = ph_display (placeholder s).
Proof.
  destruct (refs s) as [r|] eqn:Hr.
  - rewrite (reset_state s r Hr). reflexivity.
  - unfold reset. rewrite Hr. reflexivity.
Qed.

Lemma attributeChangedCallback_ph_display (name : string)
    (v : option string) (L : Layout) (s : State) :
  ph_display (placeholder (state_of (attributeChangedCallback name v L s))) =
  ph_display (placeholder s).
Proof.
  unfold attributeChangedCallback.
  destruct (String.eqb name "disabled"); [|reflexivity].
  destruct v as [v|]; [destruct (String.eqb v "true")|];
    try apply reset_ph_display; apply reflowItems_ph_display.
Qed.

Lemma iter_reflow_ph_display (n : nat) (L : Layout) (p : option ElemId)
    (s : State) :
  ph_display
    (placeholder
       (Nat.iter n (fun s => state_of (reflowItems L 0 p s)) s)) =
  ph_display (placeholder s).
Proof.
  induction n as [|n IH]; [reflexivity|].
  cbn [Nat.iter nat_rect]. rewrite reflowItems_ph_display. exact IH.
Qed.

(** Every event either leaves the placeholder's [display] alone or sets it
    to "none". *)
Lemma step_ph_display (e : Event) (s : State) :
  ph_display (placeholder (step e s)) = Some "none"
  \/ ph_display (placeholder (step e s)) = ph_display (placeholder s).
Proof.
  destruct e as [| |L| |L|v L|L|L p]; cbn [step].
  - right. unfold handleChange.
    destruct (resizeObserver _), (scheduled s); reflexivity.
  - right. unfold handleChange.
    destruct (mutationObserver _), (scheduled s); reflexivity.
  - right. destruct (pending s) as [|n]; [reflexivity|].
    unfold scheduledCallback.
    pose proof (reflowItems_ph_display L 0 None (set_pending n s)) as H.
    destruct (reflowItems L 0 None (set_pending n s)); exact H.
  - right. reflexivity.
  - unfold showAll. destruct (refs s) as [r|] eqn:Hr; [|right; reflexivity].
    left. unfold setAttribute_disabled.
    rewrite attributeChangedCallback_ph_display. reflexivity.
  - right. unfold setAttribute_disabled.
    rewrite attributeChangedCallback_ph_display. reflexivity.
  - right. unfold removeAttribute_disabled.
    destruct (attr_disabled (host s)); [|reflexivity].
    rewrite attributeChangedCallback_ph_display. reflexivity.
  - right. apply iter_reflow_ph_display.
Qed.

Lemma run_ph_display_none (es : list Event) (s : State) :
  ph_display (placeholder s) = Some "none" ->
  ph_display (placeholder (run es s)) = Some "none".
Proof.
  revert s. induction es as [|e es IH]; intros s H; [exact H|].
  change (run (e :: es) s) with (run es (step e s)). apply IH.
  destruct (step_ph_display e s) as [H'|H']; [exact H'|].
  rewrite H'. exact H.
Qed.

(** X7.  Once [showAll] has run, the placeholder's [display: none] is never
    undone by the component: whatever events follow, re-enabling through
    the [disabled] attribute and explicit reflow requests included, the
    placeholder keeps [display: none]. *)
Theorem showAll_hides_placeholder_for_good (L : Layout) (es : list Event)
    (s : State) (r : Refs) :
  refs s = Some r ->
  ph_display (placeholder (run (ShowAll L :: es) s)) = Some "none".
Proof.
  intros Hr.
  change (run (ShowAll L :: es) s) with (run es (step (ShowAll L) s)).
  apply run_ph_display_none. cbn [step].
  rewrite (showAll_state L s r Hr). reflexivity.
Qed.

Lemma showAll_hides_placeholder_for_good_witness :
  ph_display
    (placeholder
       (run [ShowAll wide; SetDisabled "false" narrow; ResizeNotification;
             TimerFires narrow; ReflowRequested narrow (Some 1)] menu))
  = Some "none".
Proof.
  apply (showAll_hides_placeholder_for_good wide
           [SetDisabled "false" narrow; ResizeNotification;
            TimerFires narrow; ReflowRequested narrow (Some 1)]
           menu selected_refs).
  reflexivity.
Defined.

(** ** Reflow requests *)









Example reattached_menu_notifies_twice :
  reflowListeners menuReattached = 2
  /\ dispatched (step (ReflowRequested narrow None) menuReattached)
     = [true; true].
Proof. vm_compute. split; reflexivity. Qed.

(** ** [#initialize] *)

Lemma In_observeIntersection (x e : ElemId) (s : State) :
  In x (intersectionObserver (observers (observeIntersection e s))) <->
  In x (intersectionObserver (observers s)) \/ x = e.
Proof.
  unfold observeIntersection.
  destruct (existsb (Nat.eqb e) (intersectionObserver (observers s))) eqn:E;
    cbn [observers set_observers intersectionObserver].
  - split; [intros H; left; exact H|].
    intros [H|H]; [exact H|]. subst x.
    apply existsb_exists in E. destruct E as [y [Hy Heq]].
    apply Nat.eqb_eq in Heq. subst y. exact Hy.
  - rewrite in_app_iff. cbn [In]. split.
    + intros [H|[H|[]]]; [left; exact H|right; symmetry; exact H].
    + intros [H|H]; [left; exact H|right; left; symmetry; exact H].
Qed.

(** X9.  With the required structure in place [#initialize] assigns the
    refs, adds one 'reflow' listener, leaves the children as they are, and
    starts observing exactly the first and the last element of the default
    slot that is not a [<template>] (one element when they coincide, none
    when there is none): a template is never observed. *)
Theorem initialize_observes_first_and_last (s : State) (root : ShadowRoot) :
  shadowRoot s = Some root ->
  requiredStructure root = true ->
  exists s',
    initialize s = Normal s'
    /\ refs s' = Some selected_refs
    /\ reflowListeners s' = S (reflowListeners s)
    /\ children s' = children s
    /\ forall e,
         In e (intersectionObserver (observers s')) <->
         In e (intersectionObserver (observers s))
         \/ exists c,
              (nth_error
                 (filter (fun c => negb (child_is_template c))
                    (assignedElements "" (children s))) 0 = Some c
               \/ lastOf
                    (filter (fun c => negb (child_is_template c))
                       (assignedElements "" (children s))) = Some c)
              /\ child_id c = e.
Proof.
  intros Hroot Hok. unfold initialize. rewrite Hroot.
  unfold requiredStructure in Hok.
  repeat (apply andb_prop in Hok; destruct Hok as [Hok ?]).
  repeat match goal with H : _ = true |- _ => rewrite H; clear H end.
  cbn [negb orb].
  cbn [selected_refs defaultSlot_name children set_refs set_reflowListeners].
  set (els := filter (fun c => negb (child_is_template c))
                (assignedElements "" (children s))).
  set (s0 := set_reflowListeners _ _).
  assert (Hobs0 : intersectionObserver (observers s0) =
                  intersectionObserver (observers s)) by reflexivity.
  destruct (nth_error els 0) as [f|] eqn:Hf.
  - destruct (lastOf els) as [l|] eqn:Hl.
    + cbn [sameElement].
      destruct (child_id l =? child_id f) eqn:Hlf; cbn [negb].
      * eexists. split; [reflexivity|]. repeat split.
        -- intros H. apply In_observeIntersection in H.
           rewrite Hobs0 in H. destruct H as [H|H]; [left; exact H|].
           right. exists f. split; [left; reflexivity|]. symmetry. exact H.
        -- intros [H|[c [[Hc|Hc] Hid]]]; apply In_observeIntersection;
             rewrite Hobs0.
           ++ left. exact H.
           ++ injection Hc as <-. right. symmetry. exact Hid.
           ++ injection Hc as <-. right. apply Nat.eqb_eq in Hlf.
              rewrite <- Hid. exact Hlf.
      * eexists. split; [reflexivity|]. repeat split.
        -- intros H. apply In_observeIntersection in H.
           destruct H as [H|H].
           ++ apply In_observeIntersection in H. rewrite Hobs0 in H.
              destruct H as [H|H]; [left; exact H|].
              right. exists f. split; [left; reflexivity|]. symmetry.
              exact H.
           ++ right. exists l. split; [right; reflexivity|]. symmetry.
              exact H.
        -- intros [H|[c [[Hc|Hc] Hid]]]; apply In_observeIntersection.
           ++ left. apply In_observeIntersection. rewrite Hobs0. left.
              exact H.
           ++ injection Hc as <-. left. apply In_observeIntersection.
              right. symmetry. exact Hid.
           ++ injection Hc as <-. right. symmetry. exact Hid.
    + eexists. split; [reflexivity|]. repeat split.
      * intros H. apply In_observeIntersection in H. rewrite Hobs0 in H.
        destruct H as [H|H]; [left; exact H|].
        right. exists f. split; [left; reflexivity|]. symmetry. exact H.
      * intros [H|[c [[Hc|Hc] Hid]]]; apply In_observeIntersection;
          rewrite Hobs0; try discriminate.
        -- left. exact H.
        -- injection Hc as <-. right. symmetry. exact Hid.
  - assert (Hnil : els = []).
    { destruct els; [reflexivity|discriminate]. }
    rewrite Hnil. cbn [lastOf List.length nth_error Nat.sub].
    eexists. split; [reflexivity|]. repeat split.
    + intros H. left. exact H.
    + intros [H|[c [[Hc|Hc] _]]]; [exact H|discriminate|discriminate].
Qed.

Lemma initialize_observes_first_and_last_witness :
  exists s',
    initialize injectedMenu = Normal s'
    /\ refs s' = Some selected_refs
    /\ reflowListeners s' = S (reflowListeners injectedMenu)
    /\ children s' = children injectedMenu
    /\ forall e,
         In e (intersectionObserver (observers s')) <->
         In e (intersectionObserver (observers injectedMenu))
         \/ exists c,
              (nth_error
                 (filter (fun c => negb (child_is_template c))
                    (assignedElements "" (children injectedMenu))) 0 = Some c
               \/ lastOf
                    (filter (fun c => negb (child_is_template c))
                       (assignedElements "" (children injectedMenu)))
                  = Some c)
              /\ child_id c = e.
Proof.
  apply (initialize_observes_first_and_last injectedMenu menuRoot).
  - reflexivity.
  - reflexivity.
Defined.

(** ** The locked height *)

Lemma reflowItems_list_height (L : Layout) (p : option ElemId) (s : State) :
  list_height (listEl (state_of (reflowItems L 0 p s))) =
  list_height (listEl s).
Proof.
  unfold reflowItems. destruct (refs s) as [r|]; [|reflexivity].
  cbn [state_of]. pose proof (reflowPass_styles r L 0 p s) as H.
  cbv zeta in H. destruct (elementsOf r s); destruct H as [H _]; rewrite H;
    reflexivity.
Qed.

Lemma step_list_height (e : Event) (s : State) :
  isDisabling e = false ->
  list_height (listEl (step e s)) = list_height (listEl s).
Proof.
  intros He. destruct e as [| |L| |L|v L|L|L p]; cbn [step];
    try discriminate.
  - unfold handleChange.
    destruct (resizeObserver _), (scheduled s); reflexivity.
  - unfold handleChange.
    destruct (mutationObserver _), (scheduled s); reflexivity.
  - destruct (pending s) as [|n]; [reflexivity|].
    unfold scheduledCallback.
    pose proof (reflowItems_list_height L None (set_pending n s)) as H.
    destruct (reflowItems L 0 None (set_pending n s)); exact H.
  - reflexivity.
  - cbn [isDisabling] in He. unfold setAttribute_disabled,
      attributeChangedCallback. cbn [String.eqb Ascii.eqb Bool.eqb andb].
    rewrite He. rewrite reflowItems_list_height. reflexivity.
  - unfold removeAttribute_disabled.
    destruct (attr_disabled (host s)); [|reflexivity].
    unfold attributeChangedCallback.
    cbn [String.eqb Ascii.eqb Bool.eqb andb].
    rewrite reflowItems_list_height. reflexivity.
  - induction (reflowListeners s) as [|n IH]; [reflexivity|].
    cbn [Nat.iter nat_rect]. rewrite reflowItems_list_height. exact IH.
Qed.

Lemma run_list_height (es : list Event) (s : State) :
  Forall (fun e => isDisabling e = false) es ->
  list_height (listEl (run es s)) = list_height (listEl s).
Proof.
  intros Hes. revert s. induction Hes as [|e es He _ IH]; intros s;
    [reflexivity|].
  change (run (e :: es) s) with (run es (step e s)).
  rewrite IH. apply step_list_height. exact He.
Qed.

Lemma elementsOf_nonempty (s : State) :
  filter isItem (children s) <> [] -> elementsOf selected_refs s <> [].
Proof.
  intros H He. apply H.
  pose proof (elementsOf_items s) as Hids. rewrite He in Hids.
  destruct (filter isItem (children s)); [reflexivity|discriminate].
Qed.

(** X10.  When the first entry handed to the intersection callback is
    intersecting, the callback stops the intersection observer for good and
    queues the first reflow with the height of that entry.  That reflow
    drops the leftover template and, the height being positive and an item
    being there, locks the list to that height; the lock then survives every
    later notification, timer, reflow request and re-enabling, until the
    list is disabled. *)
Theorem first_reflow_locks_height (mode : ElemId -> option string)
    (L : Layout) (entries : list IntersectionEntry)
    (entry : IntersectionEntry) (es : list Event) (s : State) :
  refs s = Some selected_refs ->
  nth_error entries 0 = Some entry ->
  isIntersecting entry = true ->
  (0 < boundingClientRect_height entry)%Z ->
  filter isItem (removeFirst (leftoverTemplate mode) (children s)) <> [] ->
  Forall (fun e => isDisabling e = false) es ->
  exists s1 s2,
    handleIntersection entries s = (s1, Some (boundingClientRect_height entry))
    /\ intersectionObserver (observers s1) = []
    /\ firstReflow mode L (boundingClientRect_height entry) s1 = Normal s2
    /\ idsOf (children s2) =
       idsOf (removeFirst (leftoverTemplate mode) (children s))
    /\ list_height (listEl s2) = Some (boundingClientRect_height entry)
    /\ list_height (listEl (run es s2)) =
       Some (boundingClientRect_height entry).
Proof.
  intros Hr Hentry Hint Hpos Hitems Hes.
  unfold handleIntersection. rewrite Hentry, Hint.
  eexists. eexists. split; [reflexivity|]. split; [reflexivity|].
  unfold firstReflow.
  set (s0 := set_children _ _).
  assert (Hr0 : refs s0 = Some selected_refs) by exact Hr.
  assert (Hne : elementsOf selected_refs s0 <> []).
  { apply elementsOf_nonempty. exact Hitems. }
  unfold reflowItems. rewrite Hr0.
  split; [reflexivity|].
  assert (Hh : list_height
                 (listEl
                    (reflowPass selected_refs L
                       (boundingClientRect_height entry) None s0)) =
               Some (boundingClientRect_height entry)).
  { pose proof (reflowPass_styles selected_refs L
                  (boundingClientRect_height entry) None s0) as H.
    cbv zeta in H.
    destruct (elementsOf selected_refs s0); [contradiction Hne; reflexivity|].
    destruct H as [H _]. rewrite H. cbn [list_height].
    apply Z.gtb_lt in Hpos. rewrite Hpos. reflexivity. }
  split; [|split; [exact Hh|]].
  - exact (ids_Forall2 _ (children s0) _ (fun c c' H => proj1 H)
             (reflowPass_childwise L (boundingClientRect_height entry)
                None s0)).
  - rewrite run_list_height by exact Hes. exact Hh.
Qed.

Lemma first_reflow_locks_height_witness :
  exists s1 s2,
    handleIntersection [mkEntry true 48; mkEntry false 0] injectedMenu
    = (s1, Some (boundingClientRect_height (mkEntry true 48)))
    /\ intersectionObserver (observers s1) = []
    /\ firstReflow (fun _ => Some "open") narrow
         (boundingClientRect_height (mkEntry true 48)) s1 = Normal s2
    /\ idsOf (children s2) =
       idsOf (removeFirst (leftoverTemplate (fun _ => Some "open"))
                (children injectedMenu))
    /\ list_height (listEl s2) =
       Some (boundingClientRect_height (mkEntry true 48))
    /\ list_height
         (listEl
            (run [ResizeNotification; TimerFires wide;
                  SetDisabled "false" narrow] s2)) =
       Some (boundingClientRect_height (mkEntry true 48)).
Proof.
  apply (first_reflow_locks_height (fun _ => Some "open") narrow
           [mkEntry true 48; mkEntry false 0] (mkEntry true 48)
           [ResizeNotification; TimerFires wide; SetDisabled "false" narrow]
           injectedMenu).
  - reflexivity.
  - reflexivity.
  - reflexivity.
  - reflexivity.
  - vm_compute. discriminate.
  - repeat constructor.
Defined.

(** ** Degenerate minimum *)

(** X11.  When [minimum-items] is set to a value that does not parse to a
    positive integer (no leading digits, zero or a negative number), the
    minimum is never reached: every pass in which an element overflows
    removes the [minimum-reached] attribute and dispatches a notification
    carrying [false]. *)
Theorem minimum_never_reached_when_not_positive (L : Layout) (h : Z)
    (p : option ElemId) (s : State) (mi : JS.number) :
  refs s = Some selected_refs ->
  minimumItems s = Some mi ->
  (forall z, mi = JS.Int z -> (z <= 0)%Z) ->
  exists s',
    reflowItems L h p s = Normal s'
    /\ (overflowBucket s' <> [] ->
        attr_minimum_reached (host s') = None
        /\ dispatched s' = dispatched s ++ [false]).
Proof.
  intros Hr Hmi Hz. unfold reflowItems. rewrite Hr.
  eexists. split; [reflexivity|]. intros Hov.
  destruct (reflowPass_minimum selected_refs L h p s) as [Ha [Hd _]].
  rewrite Ha, Hd, (hasOverflow_bucket L h p s), Hmi.
  destruct (overflowBucket (reflowPass selected_refs L h p s));
    [contradiction Hov; reflexivity|].
  assert (Hlt : forall n, JS.length_lt n mi = false).
  { intros n. destruct mi as [|z]; [reflexivity|]. simpl.
    apply Z.ltb_ge. specialize (Hz z eq_refl). lia. }
  rewrite Hlt. split; reflexivity.
Qed.

Lemma minimum_never_reached_when_not_positive_witness :
  exists s',
    reflowItems narrow 0 None menuAuto = Normal s'
    /\ (overflowBucket s' <> [] ->
        attr_minimum_reached (host s') = None
        /\ dispatched s' = dispatched menuAuto ++ [false]).
Proof.
  apply (minimum_never_reached_when_not_positive narrow 0 None menuAuto
           JS.NaN).
  - reflexivity.
  - reflexivity.
  - intros z Hz. discriminate Hz.
Defined.

(** ** Volume pricing tiers *)

Lemma tierLoop_rows (q : JS.number) (rows : list VolumePricing.Row) :
  forall i a,
    fst (VolumePricing.tierLoop q rows i a) =
    map (VolumePricing.setActive false) rows.
Proof.
  induction rows as [|row rows IH]; intros i a; [reflexivity|].
  cbn [VolumePricing.tierLoop].
  specialize (IH (S i)
                (if VolumePricing.qualifies q
                      (VolumePricing.setActive false row)
                 then Some i else a)).
  destruct (VolumePricing.tierLoop q rows (S i) _) as [rest t].
  cbn [fst] in *. rewrite IH. reflexivity.
Qed.

(** The row the loop ends on: the last one that qualifies, or the initial
    value when none does. *)
Lemma tierLoop_last (q : JS.number) (rows : list VolumePricing.Row) :
  forall i a,
    (exists k r,
        snd (VolumePricing.tierLoop q rows i a) = Some (i + k)
        /\ nth_error rows k = Some r
        /\ VolumePricing.qualifies q r = true
        /\ forall j r2, k < j -> nth_error rows j = Some r2 ->
             VolumePricing.qualifies q r2 = false)
    \/ (snd (VolumePricing.tierLoop q rows i a) = a
        /\ forall j r2, nth_error rows j = Some r2 ->
             VolumePricing.qualifies q r2 = false).
Proof.
  induction rows as [|row rows IH]; intros i a.
  - right. split; [reflexivity|]. intros [|j] r2 H; discriminate.
  - cbn [VolumePricing.tierLoop].
    change (VolumePricing.qualifies q (VolumePricing.setActive false row))
      with (VolumePricing.qualifies q row).
    specialize (IH (S i)
                  (if VolumePricing.qualifies q row then Some i else a)).
    destruct (VolumePricing.tierLoop q rows (S i) _) as [rest t].
    cbn [snd] in *.
    destruct IH as [[k [r [Ht [Hk [Hq Hafter]]]]]|[Ht Hnone]].
    + left. exists (S k), r. repeat split.
      * rewrite Ht. f_equal. lia.
      * exact Hk.
      * exact Hq.
      * intros [|j] r2 Hj H; [lia|]. apply (Hafter j r2); [lia|exact H].
    + destruct (VolumePricing.qualifies q row) eqn:Hrow.
      * left. exists 0, row. repeat split.
        -- rewrite Ht. f_equal. lia.
        -- exact Hrow.
        -- intros [|j] r2 Hj H; [lia|]. apply (Hnone j r2 H).
      * right. split; [exact Ht|].
        intros [|j] r2 H; [injection H as <-; exact Hrow|].
        apply (Hnone j r2 H).
Qed.

Lemma nth_error_activate (k : nat) (rows : list VolumePricing.Row) :
  forall i,
    nth_error (VolumePricing.activate k rows) i =
    if i =? k
    then option_map (VolumePricing.setActive true) (nth_error rows i)
    else nth_error rows i.
Proof.
  revert k. induction rows as [|row rows IH]; intros k i.
  - destruct k, i; cbn; try reflexivity; destruct (_ =? _); reflexivity.
  - destruct k as [|k]; destruct i as [|i]; cbn; try reflexivity.
    apply IH.
Qed.

(** X12.  For a quantity that is NaN or an integer of magnitude at most
    2^53 and rows whose [data-quantity] reads as such numbers (the range in
    which the integer [parseInt] reads is the double it returns): after
    [updateActiveTier] the highlighted row is the last row, in document
    order, that is an HTML element whose [data-quantity] the quantity
    reaches, and no other row is highlighted; when no row qualifies none
    is.  The rows themselves and their quantities are kept, and what was
    highlighted before plays no part. *)
Theorem updateActiveTier_highlights_last_reached (q : JS.number)
    (rows : list VolumePricing.Row) :
  VolumePricing.isExact q = true ->
  VolumePricing.exactTiers rows = true ->
  exists rows',
    VolumePricing.updateActiveTier q (Some rows) = Some rows'
    /\ List.length rows' = List.length rows
    /\ forall i r',
         nth_error rows' i = Some r' ->
         exists r,
           nth_error rows i = Some r
           /\ VolumePricing.row_quantity r' = VolumePricing.row_quantity r
           /\ VolumePricing.row_isHTMLElement r' =
              VolumePricing.row_isHTMLElement r
           /\ (VolumePricing.row_active r' = true <->
               VolumePricing.qualifies q r = true
               /\ forall j r2, i < j -> nth_error rows j = Some r2 ->
                    VolumePricing.qualifies q r2 = false).
Proof.
  intros _ _. unfold VolumePricing.updateActiveTier.
  pose proof (tierLoop_rows q rows 0 None) as Hrows.
  pose proof (tierLoop_last q rows 0 None) as Hlast.
  destruct (VolumePricing.tierLoop q rows 0 None) as [cleared t].
  cbn [fst snd] in *. subst cleared.
  destruct Hlast as [[k [rk [Ht [Hk [Hq Hafter]]]]]|[Ht Hnone]]; subst t.
  - cbn [Nat.add]. eexists. split; [reflexivity|]. split.
    + assert (Hlen : forall k (l : list VolumePricing.Row),
                 List.length (VolumePricing.activate k l) = List.length l).
      { intros k0 l. revert k0. induction l as [|x l IHl]; intros [|k0];
          cbn; auto. }
      rewrite Hlen, length_map. reflexivity.
    + intros i r' Hi. rewrite nth_error_activate, nth_error_map in Hi.
      destruct (nth_error rows i) as [r|] eqn:Hr;
        [|destruct (i =? k); discriminate].
      exists r. split; [reflexivity|].
      destruct (i =? k) eqn:Hik; cbn in Hi; injection Hi as <-;
        cbn [VolumePricing.setActive VolumePricing.row_quantity
             VolumePricing.row_isHTMLElement VolumePricing.row_active];
        (split; [reflexivity|]); (split; [reflexivity|]).
      * apply Nat.eqb_eq in Hik. subst i.
        rewrite Hk in Hr. injection Hr as <-.
        split; [intros _; split; assumption|reflexivity].
      * apply Nat.eqb_neq in Hik. split; [discriminate|].
        intros [Hqr Hlater]. exfalso.
        destruct (Nat.lt_total i k) as [Hlt|[Heq|Hgt]].
        -- rewrite (Hlater k rk Hlt Hk) in Hq. discriminate.
        -- contradiction.
        -- rewrite (Hafter i r Hgt Hr) in Hqr. discriminate.
  - eexists. split; [reflexivity|]. split; [apply length_map|].
    intros i r' Hi. rewrite nth_error_map in Hi.
    destruct (nth_error rows i) as [r|] eqn:Hr; [|discriminate].
    exists r. split; [reflexivity|]. cbn in Hi. injection Hi as <-.
    cbn [VolumePricing.setActive VolumePricing.row_quantity
         VolumePricing.row_isHTMLElement VolumePricing.row_active].
    repeat split; try discriminate.
    intros [Hqr _]. rewrite (Hnone i r Hr) in Hqr. discriminate.
Qed.

Lemma updateActiveTier_highlights_last_reached_witness :
  exists rows',
    VolumePricing.updateActiveTier (JS.Int 12)
      (Some VolumePricing.threeTiers) = Some rows'
    /\ List.length rows' = List.length VolumePricing.threeTiers
    /\ forall i r',
         nth_error rows' i = Some r' ->
         exists r,
           nth_error VolumePricing.threeTiers i = Some r
           /\ VolumePricing.row_quantity r' = VolumePricing.row_quantity r
           /\ VolumePricing.row_isHTMLElement r' =
              VolumePricing.row_isHTMLElement r
           /\ (VolumePricing.row_active r' = true <->
               VolumePricing.qualifies (JS.Int 12) r = true
               /\ forall j r2, i < j ->
                    nth_error VolumePricing.threeTiers j = Some r2 ->
                    VolumePricing.qualifies (JS.Int 12) r2 = false).
Proof.
  apply (updateActiveTier_highlights_last_reached (JS.Int 12)
           VolumePricing.threeTiers).
  - reflexivity.
  - reflexivity.
Defined.

(** X13.  For an integer quantity and [data-quantity] values of magnitude
    at most 2^53 (the range in which the integer [parseInt] reads is the
    double it returns): when the rows list their tiers in ascending order
    of quantity, the row [updateActiveTier] highlights is the highest tier
    the quantity reaches: its quantity is not above the given quantity, and
    no HTML row with a quantity in reach has a greater one. *)
Theorem updateActiveTier_highest_tier_when_ascending (q : Z)
    (rows rows' : list VolumePricing.Row) (i : nat)
    (r' : VolumePricing.Row) :
  VolumePricing.isExact (JS.Int q) = true ->
  VolumePricing.exactTiers rows = true ->
  (forall a b ra rb za zb,
      a <= b -> nth_error rows a = Some ra -> nth_error rows b = Some rb ->
      VolumePricing.threshold ra = JS.Int za ->
      VolumePricing.threshold rb = JS.Int zb -> (za <= zb)%Z) ->
  VolumePricing.updateActiveTier (JS.Int q) (Some rows) = Some rows' ->
  nth_error rows' i = Some r' ->
  VolumePricing.row_active r' = true ->
  exists zi,
    VolumePricing.threshold r' = JS.Int zi
    /\ (zi <= q)%Z
    /\ forall j rj zj,
         nth_error rows j = Some rj ->
         VolumePricing.row_isHTMLElement rj = true ->
         VolumePricing.threshold rj = JS.Int zj ->
         (zj <= q)%Z -> (zj <= zi)%Z.
Proof.
  intros _ _ Hsorted Hrun Hi Hact.
  unfold VolumePricing.updateActiveTier in Hrun.
  pose proof (tierLoop_rows (JS.Int q) rows 0 None) as Hrows.
  pose proof (tierLoop_last (JS.Int q) rows 0 None) as Hlast.
  destruct (VolumePricing.tierLoop (JS.Int q) rows 0 None) as [cleared t].
  cbn [fst snd] in *. subst cleared. injection Hrun as <-.
  destruct Hlast as [[k [rk [Ht [Hk [Hq Hafter]]]]]|[Ht Hnone]]; subst t.
  - cbn [Nat.add] in Hi. rewrite nth_error_activate, nth_error_map in Hi.
    destruct (nth_error rows i) as [r|] eqn:Hr;
      [|destruct (i =? k); discriminate].
    destruct (i =? k) eqn:Hik; cbn in Hi; injection Hi as <-;
      [|discriminate Hact].
    apply Nat.eqb_eq in Hik. subst i. rewrite Hk in Hr. injection Hr as <-.
    unfold VolumePricing.qualifies in Hq. apply andb_prop in Hq.
    destruct Hq as [_ Hge].
    change (VolumePricing.threshold
              (VolumePricing.setActive true
                 (VolumePricing.setActive false rk)))
      with (VolumePricing.threshold rk).
    destruct (VolumePricing.threshold rk) as [|zi] eqn:Hth;
      [discriminate Hge|].
    cbn [VolumePricing.ge] in Hge. apply Z.leb_le in Hge.
    exists zi. split; [reflexivity|]. split; [exact Hge|].
    intros j rj zj Hj Hhtml Hthj Hzj.
    destruct (Nat.le_gt_cases j k) as [Hle|Hgt].
    + exact (Hsorted j k rj rk zj zi Hle Hj Hk Hthj Hth).
    + exfalso. pose proof (Hafter j rj Hgt Hj) as Hno.
      unfold VolumePricing.qualifies in Hno.
      rewrite Hhtml, Hthj in Hno. cbn in Hno.
      apply Z.leb_gt in Hno. lia.
  - rewrite nth_error_map in Hi.
    destruct (nth_error rows i); [|discriminate].
    cbn in Hi. injection Hi as <-. discriminate Hact.
Qed.

Lemma updateActiveTier_highest_tier_when_ascending_witness :
  exists zi,
    VolumePricing.threshold (VolumePricing.mkRow true "10" true) = JS.Int zi
    /\ (zi <= 12)%Z
    /\ forall j rj zj,
         nth_error VolumePricing.threeTiers j = Some rj ->
         VolumePricing.row_isHTMLElement rj = true ->
         VolumePricing.threshold rj = JS.Int zj ->
         (zj <= 12)%Z -> (zj <= zi)%Z.
Proof.
  apply (updateActiveTier_highest_tier_when_ascending 12
           VolumePricing.threeTiers
           [VolumePricing.mkRow true "1" false;
            VolumePricing.mkRow true "10" true;
            VolumePricing.mkRow true "50" false]
           1 (VolumePricing.mkRow true "10" true)).
  - reflexivity.
  - reflexivity.
  - intros a b ra rb za zb Hab Ha Hb Hza Hzb.
    unfold VolumePricing.threeTiers in Ha, Hb.
    destruct a as [|[|[|a]]]; destruct b as [|[|[|b]]];
      cbn [nth_error] in Ha, Hb;
      try (destruct a; discriminate); try (destruct b; discriminate);
      try lia;
      injection Ha as <-; injection Hb as <-;
      vm_compute in Hza, Hzb; injection Hza as <-; injection Hzb as <-; lia.
  - reflexivity.
  - reflexivity.
  - reflexivity.
Defined.

(** With the tiers listed from the highest down, a quantity of 60 reaches
    all three and the last row, the lowest tier, is the one highlighted. *)
Example descending_tiers_highlight_the_lowest :
  VolumePricing.updateActiveTier (JS.Int 60)
    (Some VolumePricing.descendingTiers) =
  Some [VolumePricing.mkRow true "50" false;
        VolumePricing.mkRow true "10" false;
        VolumePricing.mkRow true "1" true].
Proof. reflexivity. Qed.

(** ** The header *)

Lemma updateMenuVisibility_consistent (b : bool) (w : Z)
    (c : Header.Component) :
  Header.consistent (Header.updateMenuVisibility b w c).
Proof.
  unfold Header.consistent, Header.updateMenuVisibility.
  destruct b; cbn; (split; [reflexivity|]); split; intros H;
    try reflexivity; try discriminate; contradiction H; reflexivity.
Qed.

Lemma step_consistent (e : Header.Event) (c : Header.Component) :
  Header.consistent c -> Header.consistent (Header.step e c).
Proof.
  intros Hc. destruct e as [b w|entry w]; cbn [Header.step].
  - apply updateMenuVisibility_consistent.
  - unfold Header.resizeCallback.
    destruct entry as [sizes|]; [|exact Hc].
    destruct (nth_error sizes 0) as [size|]; [|exact Hc].
    cbn [Header.menuDrawerHiddenWidth].
    destruct (Header.truthyWidth _ && _).
    + apply updateMenuVisibility_consistent.
    + exact Hc.
Qed.

(** X14.  Once the header has handled one 'overflowMinimum' notification,
    and whatever notifications and resizes follow, exactly one of the menu
    and the drawer is hidden on desktop, and the window width is recorded
    exactly while the menu is the hidden one. *)
Theorem header_stays_consistent (b : bool) (w : Z)
    (es : list Header.Event) (c : Header.Component) :
  Header.consistent (Header.run (Header.OverflowMinimum b w :: es) c).
Proof.
  change (Header.run (Header.OverflowMinimum b w :: es) c)
    with (Header.run es (Header.handleOverflowMinimum b w c)).
  assert (H0 : Header.consistent (Header.handleOverflowMinimum b w c))
    by apply updateMenuVisibility_consistent.
  revert H0. generalize (Header.handleOverflowMinimum b w c).
  induction es as [|e es IH]; intros c0 H0; [exact H0|].
  change (Header.run (e :: es) c0) with (Header.run es (Header.step e c0)).
  apply IH. apply step_consistent. exact H0.
Qed.

(** X15.  While the menu is hidden, a resize of the header brings it back
    exactly when the window has become strictly wider than it was when the
    menu was hidden, and that recorded width is not 0; the drawer is then
    hidden and the record cleared.  A resize without an entry or without a
    border box changes nothing. *)
Theorem header_restores_menu_when_wider (c : Header.Component) (w w' : Z)
    (size : Header.BoxSize) (rest : list Header.BoxSize) :
  Header.menuDrawerHiddenWidth c = Some w ->
  Header.headerMenu_hidden c = true ->
  (Header.headerMenu_hidden
     (Header.resizeCallback (Some (size :: rest)) w' c) = false
   <-> w <> 0%Z /\ (w < w')%Z)
  /\ (w <> 0%Z /\ (w < w')%Z ->
      Header.drawerContainer_desktopHidden
        (Header.resizeCallback (Some (size :: rest)) w' c) = true
      /\ Header.menuDrawerHiddenWidth
           (Header.resizeCallback (Some (size :: rest)) w' c) = None)
  /\ Header.resizeCallback None w' c = c
  /\ Header.resizeCallback (Some []) w' c = c.
Proof.
  intros Hw Hhidden. unfold Header.resizeCallback.
  cbn [nth_error Header.menuDrawerHiddenWidth]. rewrite Hw.
  cbn [Header.truthyWidth].
  destruct (Z.eqb_spec w 0) as [Hz|Hz]; cbn [negb andb].
  - cbn [Header.headerMenu_hidden]. rewrite Hhidden.
    repeat split; try discriminate; try tauto.
  - destruct (Z.gtb_spec w' w) as [Hgt|Hle].
    + cbn. repeat split; try reflexivity; try assumption; lia.
    + cbn [Header.headerMenu_hidden]. rewrite Hhidden.
      repeat split; try discriminate; try lia.
Qed.

Lemma header_restores_menu_when_wider_witness :
  (Header.headerMenu_hidden
     (Header.resizeCallback (Some [Header.mkBoxSize 129 2]) 1200
        (Header.handleOverflowMinimum true 900 Header.initial)) = false
   <-> 900%Z <> 0%Z /\ (900 < 1200)%Z)
  /\ (900%Z <> 0%Z /\ (900 < 1200)%Z ->
      Header.drawerContainer_desktopHidden
        (Header.resizeCallback (Some [Header.mkBoxSize 129 2]) 1200
           (Header.handleOverflowMinimum true 900 Header.initial)) = true
      /\ Header.menuDrawerHiddenWidth
           (Header.resizeCallback (Some [Header.mkBoxSize 129 2]) 1200
              (Header.handleOverflowMinimum true 900 Header.initial)) = None)
  /\ Header.resizeCallback None 1200
       (Header.handleOverflowMinimum true 900 Header.initial) =
     Header.handleOverflowMinimum true 900 Header.initial
  /\ Header.resizeCallback (Some []) 1200
       (Header.handleOverflowMinimum true 900 Header.initial) =
     Header.handleOverflowMinimum true 900 Header.initial.
Proof.
  apply (header_restores_menu_when_wider
           (Header.handleOverflowMinimum true 900 Header.initial) 900 1200
           (Header.mkBoxSize 129 2) []).
  - reflexivity.
  - reflexivity.
Defined.

(** X16.  The overflow list and the header together: after a reflow pass
    of a list with [minimum-items] set, the header that handles what the
    pass dispatched hides the menu and shows the drawer if and only if the
    visible bucket is smaller than the minimum, provided an element
    overflows; when nothing overflows the header hears nothing and stays as
    it was. *)
Theorem header_follows_reflow (L : Layout) (h : Z) (p : option ElemId)
    (s : State) (mi : JS.number) (w : Z) (c : Header.Component) :
  refs s = Some selected_refs ->
  minimumItems s = Some mi ->
  exists s' evs,
    reflowItems L h p s = Normal s'
    /\ dispatched s' = dispatched s ++ evs
    /\ (overflowBucket s' <> [] ->
        Header.headerMenu_hidden
          (fold_left (fun c b => Header.handleOverflowMinimum b w c) evs c)
        = JS.length_lt (List.length (visibleBucket s')) mi
        /\ Header.drawerContainer_desktopHidden
             (fold_left (fun c b => Header.handleOverflowMinimum b w c) evs c)
           = negb (JS.length_lt (List.length (visibleBucket s')) mi))
    /\ (overflowBucket s' = [] ->
        fold_left (fun c b => Header.handleOverflowMinimum b w c) evs c = c).
Proof.
  intros Hr Hmi.
  exists (reflowPass selected_refs L h p s).
  exists (passEvents selected_refs L s).
  split; [unfold reflowItems; rewrite Hr; reflexivity|].
  split; [exact (proj1 (proj2 (reflowPass_minimum selected_refs L h p s)))|].
  unfold passEvents.
  rewrite (hasOverflow_bucket L h p s), Hmi,
    <- (visibleBucket_length L h p s).
  destruct (overflowBucket (reflowPass selected_refs L h p s)) as [|o os].
  - split; [intros H; contradiction H; reflexivity|reflexivity].
  - split; [|discriminate]. intros _. cbn [fold_left].
    unfold Header.handleOverflowMinimum, Header.updateMenuVisibility.
    destruct (JS.length_lt _ mi); split; reflexivity.
Qed.

Lemma header_follows_reflow_witness :
  exists s' evs,
    reflowItems narrow 0 None menu = Normal s'
    /\ dispatched s' = dispatched menu ++ evs
    /\ (overflowBucket s' <> [] ->
        Header.headerMenu_hidden
          (fold_left (fun c b => Header.handleOverflowMinimum b 900 c) evs
             Header.initial)
        = JS.length_lt (List.length (visibleBucket s')) (JS.Int 2)
        /\ Header.drawerContainer_desktopHidden
             (fold_left (fun c b => Header.handleOverflowMinimum b 900 c) evs
                Header.initial)
           = negb (JS.length_lt (List.length (visibleBucket s')) (JS.Int 2)))
    /\ (overflowBucket s' = [] ->
        fold_left (fun c b => Header.handleOverflowMinimum b 900 c) evs
          Header.initial = Header.initial).
Proof.
  apply (header_follows_reflow narrow 0 None menu (JS.Int 2) 900
           Header.initial).
  - reflexivity.
  - reflexivity.
Defined.

(** ** A list without items *)

Lemma filter_nil_all {A : Type} (f : A -> bool) (l : list A) :
  filter f l = [] -> forall a, In a l -> f a = false.
Proof.
  induction l as [|x l IH]; intros H a Ha; [contradiction|].
  simpl in H. destruct (f x) eqn:Hx; [discriminate|].
  destruct Ha as [<-|Ha]; [exact Hx|]. apply IH; assumption.
Qed.

(** X17.  On a list without items (no child in the default or in the
    overflow slot) a reflow pass returns early: it writes no style, no
    attribute and no slot and dispatches nothing; the only effect is that
    the resize and the mutation observer are connected. *)
Theorem reflowItems_without_items (L : Layout) (h : Z) (p : option ElemId)
    (s : State) :
  refs s = Some selected_refs ->
  filter isItem (children s) = [] ->
  reflowItems L h p s =
  Normal
    (set_observers
       (mkObservers true true (intersectionObserver (observers s))) s).
Proof.
  intros Hr Hnone. unfold reflowItems. rewrite Hr. f_equal.
  assert (He : elementsOf selected_refs s = []).
  { pose proof (elementsOf_items s) as H. rewrite Hnone in H.
    destruct (elementsOf selected_refs s); [reflexivity|discriminate]. }
  rewrite (reflowPass_empty selected_refs L h p s He).
  assert (Hch : map (resetChild selected_refs) (children s) = children s).
  { rewrite <- (map_id (children s)) at 2. apply map_ext_in.
    intros c Hc. pose proof (filter_nil_all isItem _ Hnone c Hc) as Hi.
    unfold isItem in Hi. apply orb_false_elim in Hi. destruct Hi as [_ Hi].
    unfold resetChild. cbn [selected_refs overflowSlot_name].
    rewrite Hi. reflexivity. }
  apply State_ext; try reflexivity.
  cbn [observeChanges moveItemsToDefaultSlot unobserveChanges set_observers
       set_children children].
  exact Hch.
Qed.

Lemma reflowItems_without_items_witness :
  reflowItems narrow 48 (Some 9) emptyMenu =
  Normal
    (set_observers
       (mkObservers true true (intersectionObserver (observers emptyMenu)))
       emptyMenu).
Proof.
  apply (reflowItems_without_items narrow 48 (Some 9) emptyMenu).
  - reflexivity.
  - reflexivity.
Defined.

(** ** Scrolling *)



(** ** The header's hiding animation *)

(** Reduction of the projections and setters of the header's scroll
    state. *)
Ltac scroll_simpl :=
  cbn [HeaderScroll.sticky HeaderScroll.alwaysSticky HeaderScroll.offscreen
       HeaderScroll.lastScrollTop HeaderScroll.timeout
       HeaderScroll.timerPending HeaderScroll.scrollRafId
       HeaderScroll.stickyState HeaderScroll.scrollDirection
       HeaderScroll.animating HeaderScroll.set_offscreen
       HeaderScroll.set_lastScrollTop HeaderScroll.set_timeout
       HeaderScroll.set_scrollRafId HeaderScroll.set_stickyState
       HeaderScroll.set_scrollDirection HeaderScroll.set_animating
       negb andb orb].

Lemma scroll_step_frame (e : HeaderScroll.Event)
    (c : HeaderScroll.Component) :
  HeaderScroll.sticky (HeaderScroll.step e c) = HeaderScroll.sticky c
  /\ HeaderScroll.alwaysSticky (HeaderScroll.step e c) =
     HeaderScroll.alwaysSticky c.
Proof.
  destruct c as [st al off lst tmo tp raf ss sd an].
  destruct e as [|scrollTop headerTop| |entry]; cbn [HeaderScroll.step].
  - unfold HeaderScroll.handleWindowScroll. scroll_simpl.
    destruct raf; split; reflexivity.
  - scroll_simpl. destruct raf; [|split; reflexivity].
    unfold HeaderScroll.animationFrame, HeaderScroll.updateScrollState.
    destruct off, tmo; scroll_simpl;
      destruct (HeaderScroll.equals "always" st);
      destruct (scrollTop <? lst)%Z; destruct (headerTop >=? 0)%Z;
      scroll_simpl; try destruct (HeaderScroll.equals "active" ss);
      scroll_simpl; split; reflexivity.
  - scroll_simpl. destruct tp; split; reflexivity.
  - unfold HeaderScroll.intersectionCallback. scroll_simpl.
    destruct al as [[|]|], entry as [[|]|]; split; reflexivity.
Qed.

(** The invariant of the scroll-up mode: the animating attribute is only set
    while the timer that removes it is pending and the state is active. *)
Lemma scroll_step_animating (e : HeaderScroll.Event)
    (c : HeaderScroll.Component) :
  HeaderScroll.equals "always" (HeaderScroll.sticky c) = false ->
  HeaderScroll.alwaysSticky c <> Some true ->
  (HeaderScroll.animating c = true ->
   HeaderScroll.timerPending c = true
   /\ HeaderScroll.stickyState c = Some "active") ->
  HeaderScroll.animating (HeaderScroll.step e c) = true ->
  HeaderScroll.timerPending (HeaderScroll.step e c) = true
  /\ HeaderScroll.stickyState (HeaderScroll.step e c) = Some "active".
Proof.
  destruct c as [st al off lst tmo tp raf ss sd an]. scroll_simpl.
  intros Hst Hal Hinv.
  destruct e as [|scrollTop headerTop| |entry]; cbn [HeaderScroll.step].
  - unfold HeaderScroll.handleWindowScroll. scroll_simpl.
    destruct raf; exact Hinv.
  - scroll_simpl. destruct raf; [|exact Hinv].
    unfold HeaderScroll.animationFrame, HeaderScroll.updateScrollState.
    scroll_simpl. rewrite Hst.
    destruct off; scroll_simpl; [|exact Hinv].
    destruct (HeaderScroll.equals "active" ss) eqn:Hss.
    + assert (Hact : ss = Some "active").
      { destruct ss as [v|]; [|discriminate]. cbn in Hss.
        apply String.eqb_eq in Hss. subst v. reflexivity. }
      destruct tmo, (scrollTop <? lst)%Z, (headerTop >=? 0)%Z;
        scroll_simpl; rewrite ?Hss; scroll_simpl; intros H;
        try discriminate H; split; try reflexivity; exact Hact.
    + assert (Han : an = false).
      { destruct an; [|reflexivity]. destruct (Hinv eq_refl) as [_ H].
        rewrite H in Hss. discriminate Hss. }
      subst an.
      destruct tmo, (scrollTop <? lst)%Z, (headerTop >=? 0)%Z;
        scroll_simpl; rewrite ?Hss; scroll_simpl; intros H;
        discriminate H.
  - scroll_simpl. destruct tp; [|exact Hinv].
    unfold HeaderScroll.hideTimeout. scroll_simpl. intros H. discriminate H.
  - unfold HeaderScroll.intersectionCallback. scroll_simpl.
    destruct al as [[|]|]; [contradiction Hal; reflexivity| |exact Hinv].
    destruct entry as [i|]; exact Hinv.
Qed.

(** X19.  In the scroll-up mode of the header (the [sticky] attribute is
    not "always" and the intersection observer was not created for the
    always-sticky mode), whatever scroll events, animation frames, timer
    expiries and intersection callbacks occur, [data-animating] is only ever
    set while the timer that removes it is pending and the sticky state is
    "active"; when that timer fires the attribute is removed and the state
    becomes "idle". *)
Theorem header_animation_always_ends (es : list HeaderScroll.Event)
    (c : HeaderScroll.Component) :
  HeaderScroll.equals "always" (HeaderScroll.sticky c) = false ->
  HeaderScroll.alwaysSticky c <> Some true ->
  HeaderScroll.animating c = false ->
  HeaderScroll.animating (HeaderScroll.run es c) = true ->
  HeaderScroll.timerPending (HeaderScroll.run es c) = true
  /\ HeaderScroll.stickyState (HeaderScroll.run es c) = Some "active"
  /\ HeaderScroll.animating
       (HeaderScroll.step HeaderScroll.HideTimer (HeaderScroll.run es c))
     = false
  /\ HeaderScroll.stickyState
       (HeaderScroll.step HeaderScroll.HideTimer (HeaderScroll.run es c))
     = Some "idle".
Proof.
  intros Hst Hal Han.
  assert (Hinv : HeaderScroll.animating c = true ->
                 HeaderScroll.timerPending c = true
                 /\ HeaderScroll.stickyState c = Some "active").
  { rewrite Han. discriminate. }
  clear Han. revert c Hst Hal Hinv.
  induction es as [|e es IH]; intros c Hst Hal Hinv.
  - intros H. destruct (Hinv H) as [Htp Hss].
    split; [exact Htp|]. split; [exact Hss|].
    cbn [HeaderScroll.run fold_left HeaderScroll.step]. rewrite Htp.
    split; reflexivity.
  - change (HeaderScroll.run (e :: es) c)
      with (HeaderScroll.run es (HeaderScroll.step e c)).
    destruct (scroll_step_frame e c) as [Fs Fa].
    apply IH.
    + rewrite Fs. exact Hst.
    + rewrite Fa. exact Hal.
    + apply scroll_step_animating; assumption.
Qed.

Lemma header_animation_always_ends_witness :
  HeaderScroll.timerPending
    (HeaderScroll.run
       [HeaderScroll.Intersection (Some false); HeaderScroll.Scroll;
        HeaderScroll.Frame 300 (-40); HeaderScroll.Scroll;
        HeaderScroll.Frame 200 (-40); HeaderScroll.Scroll;
        HeaderScroll.Frame 260 (-40)]
       HeaderScroll.scrollUpHeader) = true
  /\ HeaderScroll.stickyState
       (HeaderScroll.run
       [HeaderScroll.Intersection (Some false); HeaderScroll.Scroll;
        HeaderScroll.Frame 300 (-40); HeaderScroll.Scroll;
        HeaderScroll.Frame 200 (-40); HeaderScroll.Scroll;
        HeaderScroll.Frame 260 (-40)]
       HeaderScroll.scrollUpHeader) = Some "active"
  /\ HeaderScroll.animating
       (HeaderScroll.step HeaderScroll.HideTimer
          (HeaderScroll.run
       [HeaderScroll.Intersection (Some false); HeaderScroll.Scroll;
        HeaderScroll.Frame 300 (-40); HeaderScroll.Scroll;
        HeaderScroll.Frame 200 (-40); HeaderScroll.Scroll;
        HeaderScroll.Frame 260 (-40)]
       HeaderScroll.scrollUpHeader)) = false
  /\ HeaderScroll.stickyState
       (HeaderScroll.step HeaderScroll.HideTimer
          (HeaderScroll.run
       [HeaderScroll.Intersection (Some false); HeaderScroll.Scroll;
        HeaderScroll.Frame 300 (-40); HeaderScroll.Scroll;
        HeaderScroll.Frame 200 (-40); HeaderScroll.Scroll;
        HeaderScroll.Frame 260 (-40)]
       HeaderScroll.scrollUpHeader)) = Some "idle".
Proof.
  apply (header_animation_always_ends
           [HeaderScroll.Intersection (Some false); HeaderScroll.Scroll;
            HeaderScroll.Frame 300 (-40); HeaderScroll.Scroll;
            HeaderScroll.Frame 200 (-40); HeaderScroll.Scroll;
            HeaderScroll.Frame 260 (-40)]
           HeaderScroll.scrollUpHeader).
  - reflexivity.
  - discriminate.
  - reflexivity.
  - reflexivity.
Defined.

(** In that run the header is scrolled down (hidden, idle), up (shown,
    active) and down again: the hiding animation is indeed under way. *)
Example scroll_up_header_is_animating :
  HeaderScroll.animating
    (HeaderScroll.run
       [HeaderScroll.Intersection (Some false); HeaderScroll.Scroll;
        HeaderScroll.Frame 300 (-40); HeaderScroll.Scroll;
        HeaderScroll.Frame 200 (-40); HeaderScroll.Scroll;
        HeaderScroll.Frame 260 (-40)]
       HeaderScroll.scrollUpHeader) = true.
Proof. reflexivity. Qed.
